(** * GhostShift favicon generator: a shallow embedding of
      [scripts/generate-favicon.py] and the properties of its renderer
      ([create_ghost_mask]) and of its export driver ([create_favicon_ico],
      [create_png], the [__main__] block).

    Numbers.  Python's [size / 64] is a binary64 division by a power of two
    and [k * s] multiplies by a constant of at most five significant bits;
    both are exact for every [|size| < 2^48], far beyond any canvas the
    imaging library can allocate.  The scale factor is therefore modelled
    by exact rationals ([Q]); [int(...)] is truncation toward zero and
    [//] is floor division. *)

From Stdlib Require Import ZArith QArith Qminmax Qround Ascii String Bool List Lia.
Import ListNotations.
Local Open Scope Z_scope.

(* ------------------------------------------------------------------ *)
(** ** Python arithmetic used by the script *)

(** [int(x)] on a float: truncation toward zero. *)
Definition py_int (x : Q) : Z := Z.quot (Qnum x) (Zpos (Qden x)).

(** [range(n)]. *)
Definition range (n : nat) : list Z := map Z.of_nat (seq 0 n).

(* ------------------------------------------------------------------ *)
(** ** Module-level colour constants (lines 8-11) *)

Record Globals := {
  BG_COLOR    : list Z;
  GHOST_COLOR : list Z;
  NEON_COLOR  : list Z;
  NEON_GLOW   : list Z
}.

(** The values bound when the module is loaded. *)
Definition module_globals : Globals :=
  {| BG_COLOR    := [10; 10; 15];
     GHOST_COLOR := [40; 40; 60];
     NEON_COLOR  := [0; 255; 170];
     NEON_GLOW   := [0; 255; 170; 128] |}.

(* ------------------------------------------------------------------ *)
(** ** Geometry of [create_ghost_mask] (lines 19-93) *)

(** Line 19: [s = max(size / 64, 0.5)]. *)
Definition s (size : Z) : Q := Qmax (inject_Z size / 64) 0.5.

(** Line 26. *)
Definition center_x (size : Z) : Z := size / 2.
Definition center_y (size : Z) : Z := size / 2 - Z.max 1 (py_int (4 * s size)).

(** Lines 27-28. *)
Definition head_width  (size : Z) : Z := Z.max 2 (py_int (24 * s size)).
Definition head_height (size : Z) : Z := Z.max 2 (py_int (22 * s size)).

(** Lines 31-46: the eleven vertices of the body. *)
Definition ghost_points (size : Z) : list (Z * Z) :=
  let cx := center_x size in
  let cy := center_y size in
  [ (cx - Z.max 1 (py_int (20 * s size)), cy + Z.max 1 (py_int (10 * s size)));
    (cx - Z.max 1 (py_int (22 * s size)), cy + Z.max 1 (py_int (20 * s size)));
    (cx - Z.max 1 (py_int (18 * s size)), cy + Z.max 1 (py_int (26 * s size)));
    (cx - Z.max 1 (py_int (14 * s size)), cy + Z.max 1 (py_int (28 * s size)));
    (cx - Z.max 1 (py_int (8 * s size)),  cy + Z.max 1 (py_int (24 * s size)));
    (cx,                                  cy + Z.max 1 (py_int (28 * s size)));
    (cx + Z.max 1 (py_int (8 * s size)),  cy + Z.max 1 (py_int (24 * s size)));
    (cx + Z.max 1 (py_int (14 * s size)), cy + Z.max 1 (py_int (28 * s size)));
    (cx + Z.max 1 (py_int (18 * s size)), cy + Z.max 1 (py_int (26 * s size)));
    (cx + Z.max 1 (py_int (22 * s size)), cy + Z.max 1 (py_int (20 * s size)));
    (cx + Z.max 1 (py_int (20 * s size)), cy + Z.max 1 (py_int (10 * s size))) ].

(** Lines 59-61. *)
Definition eye_offset_x (size : Z) : Z := Z.max 1 (py_int (8 * s size)).
Definition eye_y        (size : Z) : Z := center_y size - Z.max 1 (py_int (2 * s size)).
Definition eye_radius   (size : Z) : Z := Z.max 1 (py_int (6 * s size)).

(** Line 70. *)
Definition glow_radius (size : Z) : Z := Z.max 2 (py_int (9 * s size)).

(** Line 72: the alpha of glow layer [i]. *)
Definition glow_alpha (i : Z) : Z := 60 - i * 15.

(** Line 80. *)
Definition pupil_radius (size : Z) : Z := Z.max 1 (py_int (4 * s size)).

(** Line 88 (computed, then unused by the drawing call that follows). *)
Definition highlight_radius (size : Z) : Z := Z.max 1 (py_int (1.5 * s size)).

(** A bounding box [[x0, y0, x1, y1]]. *)
Definition Box : Type := Z * Z * Z * Z.

(** Lines 53-54. *)
Definition head_box (size : Z) : Box :=
  (center_x size - head_width size, center_y size - head_height size,
   center_x size + head_width size, center_y size + head_height size / 2).

(** Lines 64-65. *)
Definition socket_box (size : Z) : Box :=
  (center_x size - eye_offset_x size - eye_radius size, eye_y size - eye_radius size,
   center_x size - eye_offset_x size + eye_radius size, eye_y size + eye_radius size).

(** Lines 74-75, for loop index [i]. *)
Definition glow_box (size i : Z) : Box :=
  (center_x size - eye_offset_x size - glow_radius size + i * 2,
   eye_y size - glow_radius size + i * 2,
   center_x size - eye_offset_x size + glow_radius size - i * 2,
   eye_y size + glow_radius size - i * 2).

(** Lines 82-83. *)
Definition pupil_box (size : Z) : Box :=
  (center_x size - eye_offset_x size - pupil_radius size, eye_y size - pupil_radius size,
   center_x size - eye_offset_x size + pupil_radius size, eye_y size + pupil_radius size).

(** Lines 90-91. *)
Definition highlight_box (size : Z) : Box :=
  (center_x size - eye_offset_x size - py_int (2 * s size),
   eye_y size - py_int (2 * s size),
   center_x size - eye_offset_x size - Z.max 1 (py_int (0.5 * s size)),
   eye_y size - Z.max 1 (py_int (0.5 * s size))).

(* ------------------------------------------------------------------ *)
(** ** The drawing calls, in program order (lines 49-93) *)

Inductive DrawCall : Type :=
| polygon (xy : list (Z * Z)) (fill : list Z)
| ellipse (xy : Box) (fill : list Z).

(** The loop of lines 71-77. *)
Definition glow_rings (g : Globals) (size : Z) : list DrawCall :=
  map (fun i => let alpha := glow_alpha i in
                ellipse (glow_box size i) (NEON_COLOR g ++ [alpha]))
      (range 3).

(** Everything [create_ghost_mask] draws once past the guard of line 22. *)
Definition draw_calls (g : Globals) (size : Z) : list DrawCall :=
  [ polygon (ghost_points size) (GHOST_COLOR g ++ [255]);
    ellipse (head_box size) (GHOST_COLOR g ++ [255]);
    ellipse (socket_box size) (BG_COLOR g ++ [255]) ]
  ++ glow_rings g size
  ++ [ ellipse (pupil_box size) (NEON_COLOR g);
       ellipse (highlight_box size) [200; 255; 230] ].

(* ------------------------------------------------------------------ *)
(** ** The imaging library, as far as the script uses it

    The library itself is not part of the repository.  Its data (a canvas
    with a mode, a size and row-major pixel data) and the documented
    behaviour of the entry points the script calls are written out below;
    the scan conversion of shapes and the resampling kernels are left as
    operations of an interface, so that every result holds for any
    rasteriser. *)

Definition Pixel : Type := Z * Z * Z * Z.

Record Canvas := {
  mode  : string;        (* im.mode *)
  csize : Z * Z;         (* im.size = (width, height) *)
  data  : list Pixel     (* pixels, row after row *)
}.

(** The exceptions that can reach the script.  [OSError] stands for the
    failure to open a path for writing ([FileNotFoundError],
    [PermissionError]); [EncoderError] for the error an encoder raises
    when it is given nothing to encode (an image without pixels, no frame
    at all), whose Python class depends on the format and on the library
    version. *)
Inductive Exn : Type :=
  ValueError | TypeError | IndexError | OSError | EncoderError.

Inductive Res (A : Type) : Type :=
| Ok (a : A)
| Raise (e : Exn).
Arguments Ok {A} a.
Arguments Raise {A} e.

Inductive Filter : Type := NEAREST | BILINEAR | BICUBIC | LANCZOS.

Class Imaging := {
  (** the pixels [(x, y)] that [ImageDraw.ellipse] fills for a bounding box *)
  ellipse_cover : Box -> Z -> Z -> bool;
  (** the pixels that [ImageDraw.polygon] fills for a vertex list *)
  polygon_cover : list (Z * Z) -> Z -> Z -> bool;
  (** the pixel data [Image.resize] computes when the size changes *)
  resample : Canvas -> Z * Z -> Filter -> list Pixel;
  (** [Image.thumbnail], used by the ICO writer for a missing size *)
  thumbnail : Canvas -> Z * Z -> Filter -> Canvas
}.

Definition clip8 (v : Z) : Z := Z.max 0 (Z.min 255 v).

(** A colour tuple turned into the ink of an RGBA canvas (the only mode
    the script creates): three components are opaque, four carry their
    alpha. *)
Definition ink_of (color : list Z) : Res Pixel :=
  match color with
  | [r; g; b]    => Ok (clip8 r, clip8 g, clip8 b, 255)
  | [r; g; b; a] => Ok (clip8 r, clip8 g, clip8 b, clip8 a)
  | _            => Raise TypeError
  end.

(** [Image.new(mode, size, color)]: a canvas filled with one colour; a
    negative dimension is a [ValueError]. *)
Definition Image_new (md : string) (size : Z * Z) (color : list Z) : Res Canvas :=
  if (fst size <? 0) || (snd size <? 0) then Raise ValueError
  else match ink_of color with
       | Ok ink => Ok {| mode := md; csize := size;
                         data := repeat ink (Z.to_nat (fst size * snd size)) |}
       | Raise e => Raise e
       end.

(** Drawing is in place: a covered pixel takes the ink (the default draw
    mode of an RGBA canvas stores the ink, alpha included), every other
    pixel keeps its value. *)
Definition paint (cover : Z -> Z -> bool) (ink : Pixel) (im : Canvas) : Canvas :=
  let w := fst (csize im) in
  {| mode := mode im;
     csize := csize im;
     data := map (fun ip : nat * Pixel =>
                    if cover (Z.of_nat (fst ip) mod w) (Z.of_nat (fst ip) / w)
                    then ink else snd ip)
                 (combine (seq 0 (length (data im))) (data im)) |}.

Definition well_ordered (b : Box) : bool :=
  let '(x0, y0, x1, y1) := b in (x0 <=? x1) && (y0 <=? y1).

Section Library.

Context {backend : Imaging}.

(** One call on the [ImageDraw.Draw(img)] object.  The ink is resolved
    first; an ellipse whose box has [x1 < x0] or [y1 < y0] is a
    [ValueError]. *)
Definition draw (im : Canvas) (c : DrawCall) : Res Canvas :=
  match c with
  | polygon xy fill =>
      match ink_of fill with
      | Ok ink => Ok (paint (polygon_cover xy) ink im)
      | Raise e => Raise e
      end
  | ellipse xy fill =>
      match ink_of fill with
      | Ok ink => if well_ordered xy then Ok (paint (ellipse_cover xy) ink im)
                  else Raise ValueError
      | Raise e => Raise e
      end
  end.

Fixpoint draw_all (im : Canvas) (cs : list DrawCall) : Res Canvas :=
  match cs with
  | [] => Ok im
  | c :: rest =>
      match draw im c with
      | Ok im' => draw_all im' rest
      | Raise e => Raise e
      end
  end.

Definition size_eqb (a b : Z * Z) : bool := (fst a =? fst b) && (snd a =? snd b).

(** [im.resize(size, resample)]: a request for the size the canvas
    already has returns a copy; otherwise both dimensions must be positive
    and the pixels are resampled. *)
Definition resize (im : Canvas) (size : Z * Z) (flt : Filter) : Res Canvas :=
  if size_eqb (csize im) size then Ok im
  else if (fst size <=? 0) || (snd size <=? 0) then Raise ValueError
  else Ok {| mode := mode im; csize := size; data := resample im size flt |}.

(** [sorted(set(sizes))] on pairs. *)
Definition size_ltb (a b : Z * Z) : bool :=
  (fst a <? fst b) || ((fst a =? fst b) && (snd a <? snd b)).

Fixpoint insert_size (x : Z * Z) (l : list (Z * Z)) : list (Z * Z) :=
  match l with
  | [] => [x]
  | y :: rest =>
      if size_ltb x y then x :: l
      else if size_eqb x y then l
      else y :: insert_size x rest
  end.

Definition sorted_set (l : list (Z * Z)) : list (Z * Z) :=
  fold_right insert_size [] l.

(** The frames the ICO writer stores for
    [im.save(path, format='ICO', sizes=..., append_images=...)].  As the
    library documents: any requested size bigger than the image being
    saved, or bigger than 256, is ignored; an appended image replaces the
    scaled-down copy of its size.  (The scaled-down copy is never needed
    when the requested sizes are those of the images handed over, as in
    this script.) *)
Definition ico_frames (im : Canvas) (sizes : list (Z * Z))
    (append_images : list Canvas) : list Canvas :=
  let provided_ims := im :: append_images in
  let '(width, height) := csize im in
  flat_map
    (fun size : Z * Z =>
       if (width <? fst size) || (height <? snd size)
          || (256 <? fst size) || (256 <? snd size)
       then []
       else match find (fun p => size_eqb (csize p) size) provided_ims with
            | Some p => [p]
            | None => [thumbnail im size LANCZOS]
            end)
    (sorted_set sizes).

End Library.

(* ------------------------------------------------------------------ *)
(** ** The world the script runs in *)

Inductive File : Type :=
| PNG_file (im : Canvas)
| ICO_file (frames : list Canvas).

Record World := {
  globals  : Globals;                (* the module-level names *)
  files    : list (string * File);   (* the file system, one entry per path *)
  stdout   : list string;            (* the lines printed so far *)
  writable : string -> bool          (* the paths that can be opened for
                                        writing: the directory exists and
                                        permits it *)
}.

(** Statements run in a world and either return a value and the world
    they leave, or raise. *)
Definition M (A : Type) : Type := World -> Res (A * World).

Definition ret {A} (a : A) : M A := fun w => Ok (a, w).

Definition bind {A B} (m : M A) (k : A -> M B) : M B :=
  fun w => match m w with
           | Ok (a, w') => k a w'
           | Raise e => Raise e
           end.

Definition lift {A} (r : Res A) : M A :=
  fun w => match r with
           | Ok a => Ok (a, w)
           | Raise e => Raise e
           end.

Definition raise {A} (e : Exn) : M A := fun _ => Raise e.

Declare Scope py_scope.
Delimit Scope py_scope with py.
Notation "x <- m ;; k" := (bind m (fun x => k))
  (at level 100, m at next level, right associativity) : py_scope.
Notation "m ;; k" := (bind m (fun _ => k))
  (at level 100, right associativity) : py_scope.

Definition read_globals : M Globals := fun w => Ok (globals w, w).

Definition print (line : string) : M unit :=
  fun w => Ok (tt, {| globals := globals w; files := files w;
                      stdout := stdout w ++ [line];
                      writable := writable w |}).

(** Writing a path creates the file or replaces its contents; a path
    that cannot be opened for writing is an [OSError]. *)
Definition write_file (path : string) (f : File) : M unit :=
  fun w =>
    if writable w path
    then Ok (tt, {| globals := globals w;
                    files := (path, f)
                             :: filter (fun e => negb (String.eqb (fst e) path)) (files w);
                    stdout := stdout w;
                    writable := writable w |})
    else Raise OSError.

(** An image without pixels. *)
Definition is_empty (im : Canvas) : bool :=
  (fst (csize im) =? 0) || (snd (csize im) =? 0).

(** What the encoder refuses: no image at all, or an image without
    pixels. *)
Definition frames_refused (frames : list Canvas) : bool :=
  match frames with [] => true | _ => existsb is_empty frames end.

(** [path] is opened first, then the encoder runs on the images to
    store.  (What is left at [path] after a failed save is not modelled:
    an exception carries no world.) *)
Definition save_checked (path : string) (ims : list Canvas) (f : File) : M unit :=
  fun w =>
    if writable w path
    then if frames_refused ims then Raise EncoderError else write_file path f w
    else Raise OSError.

(** [img.save(path, 'PNG')]. *)
Definition save_png (path : string) (im : Canvas) : M unit :=
  save_checked path [im] (PNG_file im).

Definition lookup_file (path : string) (w : World) : option File :=
  option_map snd (find (fun e => String.eqb (fst e) path) (files w)).

(* ------------------------------------------------------------------ *)
(** ** The script *)

Section Script.

Context {backend : Imaging}.
Local Open Scope py_scope.
Local Open Scope string_scope.

(** Lines 13-95.  [draw] mutates the canvas [img] it was created on, which
    is local to the call, so the canvas is threaded through the calls. *)
Definition create_ghost_mask (size : Z) : M Canvas :=
  g <- read_globals ;;
  img <- lift (Image_new "RGBA" (size, size) (BG_COLOR g ++ [255])) ;;
  if (size <? 8)%Z then ret img
  else lift (draw_all img (draw_calls g size)).

(** [first.save(path, format='ICO', sizes=..., append_images=...)]: the
    frames the writer selects are encoded one by one. *)
Definition save_ico (path : string) (first : Canvas) (sizes : list (Z * Z))
    (append_images : list Canvas) : M unit :=
  let frames := ico_frames first sizes append_images in
  save_checked path frames (ICO_file frames).

(** The loop of lines 99-102. *)
Fixpoint render_frames (sizes : list Z) : M (list Canvas) :=
  match sizes with
  | [] => ret []
  | size :: rest =>
      img <- create_ghost_mask size ;;
      frame <- lift (resize img (size, size) LANCZOS) ;;
      images <- render_frames rest ;;
      ret (frame :: images)
  end.

Definition default_sizes : list Z := [16; 32; 48; 64; 128; 256]%Z.

Definition public_dir : string := "/root/.openclaw/workspace/ghostshift/public/".

(** Lines 97-108. *)
Definition create_favicon_ico (sizes : list Z) : M string :=
  images <- render_frames sizes ;;
  let ico_path := public_dir ++ "favicon.ico" in
  match images with
  | [] => raise IndexError
  | first :: others =>
      save_ico ico_path first (map csize images) others ;;
      print ("Created " ++ ico_path) ;;
      ret ico_path
  end.

(** Lines 110-116. *)
Definition create_png (size : Z) (filename : string) : M string :=
  img <- create_ghost_mask size ;;
  let path := public_dir ++ filename in
  save_png path img ;;
  print ("Created " ++ path) ;;
  ret path.

(** Lines 118-127. *)
Definition main : M unit :=
  print "Generating GhostShift favicon assets..." ;;
  create_favicon_ico default_sizes ;;
  create_png 16 "favicon-16x16.png" ;;
  create_png 32 "favicon-32x32.png" ;;
  create_png 180 "apple-touch-icon.png" ;;
  print (String "010"%char "All favicon assets created successfully!").

End Script.

(** The world in which the script starts: the module's constants, no
    output file yet, nothing printed, and an output directory that exists
    and can be written. *)
Definition initial_world : World :=
  {| globals := module_globals; files := []; stdout := [];
     writable := fun _ => true |}.

(* ------------------------------------------------------------------ *)
(** ** A reference rasteriser

    A plain inhabitant of [Imaging], used to run the script on concrete
    sizes.  It is a stand-in, not the library's scan converter, and may
    differ from it on the pixels at the edge of a shape: an ellipse covers
    the pixels inside the inscribed ellipse of its box and, like the
    library, nothing when the box is a single point; a polygon covers the
    pixels inside it by the even-odd rule; resampling takes the nearest
    pixel.  No general statement below depends on it. *)

Definition sq (a : Z) : Z := a * a.

Definition reference_ellipse (b : Box) (x y : Z) : bool :=
  let '(x0, y0, x1, y1) := b in
  let w := x1 - x0 + 1 in
  let h := y1 - y0 + 1 in
  negb ((x0 =? x1) && (y0 =? y1))
  && (x0 <=? x) && (x <=? x1) && (y0 <=? y) && (y <=? y1)
  && (sq (2 * x - x0 - x1) * sq h + sq (2 * y - y0 - y1) * sq w <=? sq w * sq h).

Definition crosses (x y : Z) (a b : Z * Z) : bool :=
  let '(ax, ay) := a in
  let '(bx, by_) := b in
  if negb (Bool.eqb (y <? ay) (y <? by_)) then
    if ay <? by_ then (x - ax) * (by_ - ay) <? (y - ay) * (bx - ax)
    else (y - ay) * (bx - ax) <? (x - ax) * (by_ - ay)
  else false.

Fixpoint crossings (x y : Z) (first prev : Z * Z) (pts : list (Z * Z)) : bool :=
  match pts with
  | [] => crosses x y prev first
  | p :: rest => xorb (crosses x y prev p) (crossings x y first p rest)
  end.

Definition reference_polygon (pts : list (Z * Z)) (x y : Z) : bool :=
  match pts with
  | [] => false
  | p :: rest => crossings x y p p rest
  end.

Definition nearest (im : Canvas) (size : Z * Z) (_ : Filter) : list Pixel :=
  let '(w, h) := csize im in
  let '(W, H) := size in
  map (fun i => let X := Z.of_nat i mod W in
                let Y := Z.of_nat i / W in
                nth (Z.to_nat ((Y * h / H) * w + X * w / W)) (data im) (0, 0, 0, 0))
      (seq 0 (Z.to_nat (W * H))).

#[export] Instance reference_imaging : Imaging := {|
  ellipse_cover := reference_ellipse;
  polygon_cover := reference_polygon;
  resample := nearest;
  thumbnail := fun im size flt =>
                 {| mode := mode im; csize := size; data := nearest im size flt |}
|}.

(* ------------------------------------------------------------------ *)
(** ** Vocabulary of the properties *)

(** The clamped measurements of the renderer: the centre offset, the head
    radii, the offsets of the body vertices, and the offsets and radii of
    the eye. *)
Definition measurements (size : Z) : list Z :=
  [ Z.max 1 (py_int (4 * s size));
    head_width size; head_height size;
    Z.max 1 (py_int (20 * s size)); Z.max 1 (py_int (10 * s size));
    Z.max 1 (py_int (22 * s size)); Z.max 1 (py_int (18 * s size));
    Z.max 1 (py_int (26 * s size)); Z.max 1 (py_int (14 * s size));
    Z.max 1 (py_int (28 * s size)); Z.max 1 (py_int (8 * s size));
    Z.max 1 (py_int (24 * s size));
    eye_offset_x size; Z.max 1 (py_int (2 * s size)); eye_radius size;
    glow_radius size; pupil_radius size; highlight_radius size;
    py_int (2 * s size); Z.max 1 (py_int (0.5 * s size)) ].

Definition list_min (l : list Z) : Z :=
  match l with [] => 0 | x :: rest => fold_left Z.min rest x end.

Definition list_max (l : list Z) : Z :=
  match l with [] => 0 | x :: rest => fold_left Z.max rest x end.

(** The box a drawing call spans. *)
Definition bounding_box (c : DrawCall) : Box :=
  match c with
  | ellipse b _ => b
  | polygon pts _ =>
      (list_min (map fst pts), list_min (map snd pts),
       list_max (map fst pts), list_max (map snd pts))
  end.

Definition box_width  (b : Box) : Z := let '(x0, _, x1, _) := b in x1 - x0.
Definition box_height (b : Box) : Z := let '(_, y0, _, y1) := b in y1 - y0.

Definition positive_extent (c : DrawCall) : Prop :=
  0 < box_width (bounding_box c) /\ 0 < box_height (bounding_box c).

Definition nonneg_extent (c : DrawCall) : Prop :=
  0 <= box_width (bounding_box c) /\ 0 <= box_height (bounding_box c).

Definition fill_of (c : DrawCall) : list Z :=
  match c with polygon _ f => f | ellipse _ f => f end.

(** The boxes handed to [draw.ellipse]. *)
Definition ellipse_boxes (cs : list DrawCall) : list Box :=
  flat_map (fun c => match c with ellipse b _ => [b] | polygon _ _ => [] end) cs.

(** [inner] lies strictly inside [outer]. *)
Definition strictly_inside (inner outer : Box) : Prop :=
  let '(a0, b0, a1, b1) := inner in
  let '(x0, y0, x1, y1) := outer in
  x0 < a0 /\ y0 < b0 /\ a1 < x1 /\ b1 < y1.

Definition box_ordered (b : Box) : Prop :=
  let '(x0, y0, x1, y1) := b in x0 <= x1 /\ y0 <= y1.

(** A call the library accepts: its fill is a colour, and an ellipse has
    a well-ordered box. *)
Definition drawable (c : DrawCall) : Prop :=
  (exists ink, ink_of (fill_of c) = Ok ink) /\
  match c with ellipse b _ => well_ordered b = true | polygon _ _ => True end.

(** What [create_ghost_mask] computes from the module constants and the
    size alone. *)
Definition rendering {backend : Imaging} (g : Globals) (size : Z) : Res Canvas :=
  match Image_new "RGBA" (size, size) (BG_COLOR g ++ [255]) with
  | Ok img => if size <? 8 then Ok img else draw_all img (draw_calls g size)
  | Raise e => Raise e
  end.

(** The canvas [Image.new] returns for the background colour. *)
Definition blank (size : Z) : Canvas :=
  {| mode := "RGBA"; csize := (size, size);
     data := repeat (10, 10, 15, 255) (Z.to_nat (size * size)) |}.

(** The path [create_favicon_ico] writes. *)
Definition ico_path : string := (public_dir ++ "favicon.ico")%string.

(** The pixel at column [x] of row [y]. *)
Definition pixel_at (im : Canvas) (x y : Z) : option Pixel :=
  if (0 <=? x) && (x <? fst (csize im)) && (0 <=? y) && (y <? snd (csize im))
  then nth_error (data im) (Z.to_nat (y * fst (csize im) + x))
  else None.

(** A world that differs from the initial one in its files and output. *)
Definition busy_world : World :=
  {| globals := module_globals;
     files := [("notes.txt"%string, ICO_file [])];
     stdout := ["hello"%string];
     writable := fun _ => true |}.
(* ------------------------------------------------------------------ *)
(** ** Further vocabulary: placement on the canvas and compositing *)

(** A box that lies on the canvas of a given size; boxes are inclusive,
    columns and rows run from 0 to [size - 1]. *)
Definition on_canvas (size : Z) (b : Box) : Prop :=
  let '(x0, y0, x1, y1) := b in
  0 <= x0 /\ 0 <= y0 /\ x1 <= size - 1 /\ y1 <= size - 1.

(** The mirror image of a point in the column [cx]. *)
Definition mirror (cx : Z) (p : Z * Z) : Z * Z := (2 * cx - fst p, snd p).

(** Twice the centre of a box. *)
Definition box_centre2 (b : Box) : Z * Z :=
  let '(x0, y0, x1, y1) := b in (x0 + x1, y0 + y1).

(** A drawing call moved by [d] pixels along both axes. *)
Definition shift_point (d : Z) (p : Z * Z) : Z * Z := (fst p + d, snd p + d).

Definition shift_call (d : Z) (c : DrawCall) : DrawCall :=
  match c with
  | polygon pts fill => polygon (map (shift_point d) pts) fill
  | ellipse (x0, y0, x1, y1) fill => ellipse (x0 + d, y0 + d, x1 + d, y1 + d) fill
  end.

(** The pixels a call fills, according to the rasteriser. *)
Definition covers {backend : Imaging} (c : DrawCall) (x y : Z) : bool :=
  match c with
  | polygon xy _ => polygon_cover xy x y
  | ellipse xy _ => ellipse_cover xy x y
  end.

(** The colour left at [(x, y)] when the calls [cs] are drawn in order
    over a pixel of colour [p]: the ink of the last call that covers it. *)
Fixpoint composite {backend : Imaging} (cs : list DrawCall) (p : Pixel) (x y : Z) : Pixel :=
  match cs with
  | [] => p
  | c :: rest =>
      composite rest
        (if covers c x y
         then match ink_of (fill_of c) with Ok ink => ink | Raise _ => p end
         else p)
        x y
  end.

(** The canvas has as many pixels as its size says. *)
Definition well_formed (im : Canvas) : Prop :=
  0 <= fst (csize im) /\ 0 <= snd (csize im) /\
  Z.of_nat (length (data im)) = fst (csize im) * snd (csize im).

(** A size as the pair the ICO writer is given. *)
Definition square (z : Z) : Z * Z := (z, z).

(** The drawing calls [create_ghost_mask] makes: none when the guard of
    line 22 returns, the whole sequence otherwise. *)
Definition calls_made (g : Globals) (size : Z) : list DrawCall :=
  if size <? 8 then [] else draw_calls g size.



(* ------------------------------------------------------------------ *)
(** ** Facts about the scale factor and about [int(k * s)] *)

Section ScaleFacts.

Local Open Scope Q_scope.

Lemma s_small (size : Z) : (size < 32)%Z -> s size == 1 # 2.
Proof.
  intros H. unfold s. rewrite Q.max_r; [reflexivity|].
  unfold Qle, Qdiv, Qmult, Qinv, inject_Z; simpl. lia.
Qed.

Lemma s_large (size : Z) : (32 <= size)%Z -> s size == size # 64.
Proof.
  intros H. unfold s. rewrite Q.max_l.
  - unfold Qeq, Qdiv, Qmult, Qinv, inject_Z; simpl. lia.
  - unfold Qle, Qdiv, Qmult, Qinv, inject_Z; simpl. lia.
Qed.

Lemma s_lower (size : Z) : 0.5 <= s size.
Proof. apply Q.le_max_r. Qed.

Lemma s_monotone (a b : Z) : (a <= b)%Z -> s a <= s b.
Proof.
  intros H. unfold s. apply Q.max_le_compat_r.
  unfold Qle, Qdiv, Qmult, Qinv, inject_Z; simpl. lia.
Qed.

Lemma py_int_floor (x : Q) : 0 <= x -> py_int x = Qfloor x.
Proof.
  destruct x as [n d]. unfold Qle, py_int; simpl. intros H.
  apply Z.quot_div_nonneg; lia.
Qed.

(** Closed integer form of [int(k * s)] for a non-negative constant
    [k = n / d]. *)
Lemma py_int_scaled (n : Z) (d : positive) (size : Z) :
  (0 <= n)%Z ->
  py_int ((n # d) * s size) =
    if (size <? 32)%Z then (n / (2 * Zpos d))%Z
    else (n * size / (64 * Zpos d))%Z.
Proof.
  intros Hn.
  assert (Hs : 0 <= s size).
  { apply Qle_trans with 0.5; [unfold Qle; simpl; lia | apply s_lower]. }
  rewrite py_int_floor.
  2:{ apply Qmult_le_0_compat; [unfold Qle; simpl; lia | exact Hs]. }
  destruct (Z.ltb_spec size 32) as [Hlt|Hge].
  - rewrite (Qfloor_comp _ (n # (2 * d))).
    + reflexivity.
    + rewrite (s_small _ Hlt). unfold Qeq, Qmult; simpl. lia.
  - rewrite (Qfloor_comp _ ((n * size) # (64 * d))).
    + reflexivity.
    + rewrite (s_large _ Hge). unfold Qeq, Qmult; simpl. lia.
Qed.

End ScaleFacts.

(* ------------------------------------------------------------------ *)
(** ** Geometry in integers *)

(** Replace every [int(k * s)] of the goal by its closed form and split
    on the two regimes of the scale factor. *)
Ltac int_closed_forms :=
  repeat match goal with
  | |- context [py_int (Qmult ?k (s ?z))] =>
      let n := eval cbv in (Qnum k) in
      let d := eval cbv in (Qden k) in
      change (py_int (Qmult k (s z))) with (py_int (Qmult (n # d) (s z)));
      rewrite (py_int_scaled n d z) by lia
  end.

Ltac geometry :=
  unfold head_box, socket_box, glow_box, pupil_box, highlight_box,
         eye_y, center_y, center_x, eye_offset_x, eye_radius, glow_radius,
         pupil_radius, highlight_radius, head_width, head_height;
  int_closed_forms;
  match goal with
  | |- context [Z.ltb ?z 32] => destruct (Z.ltb_spec z 32)
  | _ => idtac
  end;
  cbn [box_width box_height bounding_box fst snd];
  Z.div_mod_to_equations; lia.

Lemma measurements_clamped (size : Z) :
  Forall (fun m => 1 <= m) (measurements size).
Proof.
  unfold measurements.
  repeat (apply Forall_cons; [try (geometry) |]); try apply Forall_nil.
Qed.

Lemma glow_radius_lower (size : Z) : 4 <= glow_radius size.
Proof. geometry. Qed.

Lemma head_box_extent (size : Z) :
  0 < box_width (head_box size) /\ 0 < box_height (head_box size).
Proof. split; geometry. Qed.

Lemma socket_box_extent (size : Z) :
  0 < box_width (socket_box size) /\ 0 < box_height (socket_box size).
Proof. split; geometry. Qed.

Lemma pupil_box_extent (size : Z) :
  0 < box_width (pupil_box size) /\ 0 < box_height (pupil_box size).
Proof. split; geometry. Qed.

Lemma glow_box_extent (size i : Z) :
  box_width (glow_box size i) = 2 * glow_radius size - 4 * i /\
  box_height (glow_box size i) = 2 * glow_radius size - 4 * i.
Proof. unfold glow_box; cbn [box_width box_height]; lia. Qed.

Lemma highlight_box_extent (size : Z) :
  0 <= box_width (highlight_box size) /\ 0 <= box_height (highlight_box size).
Proof. split; geometry. Qed.

Lemma highlight_box_extent_large (size : Z) :
  64 <= size ->
  0 < box_width (highlight_box size) /\ 0 < box_height (highlight_box size).
Proof. intros H; split; geometry. Qed.

Lemma glow_radius_large (size : Z) : 36 <= size -> 5 <= glow_radius size.
Proof. intros H. geometry. Qed.

(* ------------------------------------------------------------------ *)
(** ** Extent of the body polygon *)

Lemma fold_min_le (l : list Z) (a : Z) :
  fold_left Z.min l a <= a /\ forall x, In x l -> fold_left Z.min l a <= x.
Proof.
  revert a. induction l as [|b l IH]; intros a; simpl.
  - split; [lia | tauto].
  - destruct (IH (Z.min a b)) as [H1 H2]. split; [lia|].
    intros x [<-|Hx]; [lia | auto].
Qed.

Lemma fold_max_ge (l : list Z) (a : Z) :
  a <= fold_left Z.max l a /\ forall x, In x l -> x <= fold_left Z.max l a.
Proof.
  revert a. induction l as [|b l IH]; intros a; simpl.
  - split; [lia | tauto].
  - destruct (IH (Z.max a b)) as [H1 H2]. split; [lia|].
    intros x [<-|Hx]; [lia | auto].
Qed.

Lemma list_min_le (l : list Z) (x : Z) : In x l -> list_min l <= x.
Proof.
  destruct l as [|a l]; [intros []|]. unfold list_min.
  destruct (fold_min_le l a) as [H1 H2]. intros [<-|Hx]; auto.
Qed.

Lemma list_max_ge (l : list Z) (x : Z) : In x l -> x <= list_max l.
Proof.
  destruct l as [|a l]; [intros []|]. unfold list_max.
  destruct (fold_max_ge l a) as [H1 H2]. intros [<-|Hx]; auto.
Qed.

Lemma body_extent (size : Z) (fill : list Z) :
  positive_extent (polygon (ghost_points size) fill).
Proof.
  unfold positive_extent, bounding_box, box_width, box_height.
  set (xs := map fst (ghost_points size)).
  set (ys := map snd (ghost_points size)).
  assert (Hx0 : list_min xs <= center_x size - Z.max 1 (py_int (20 * s size))).
  { apply list_min_le. subst xs. unfold ghost_points. cbn [map fst snd In].
    repeat (first [left; reflexivity | right]). }
  assert (Hx1 : center_x size + Z.max 1 (py_int (20 * s size)) <= list_max xs).
  { apply list_max_ge. subst xs. unfold ghost_points. cbn [map fst snd In].
    repeat (first [left; reflexivity | right]). }
  assert (Hy0 : list_min ys <= center_y size + Z.max 1 (py_int (10 * s size))).
  { apply list_min_le. subst ys. unfold ghost_points. cbn [map fst snd In].
    repeat (first [left; reflexivity | right]). }
  assert (Hy1 : center_y size + Z.max 1 (py_int (28 * s size)) <= list_max ys).
  { apply list_max_ge. subst ys. unfold ghost_points. cbn [map fst snd In].
    repeat (first [left; reflexivity | right]). }
  assert (Hd : Z.max 1 (py_int (10 * s size)) < Z.max 1 (py_int (28 * s size))).
  { geometry. }
  split; lia.
Qed.

(* ------------------------------------------------------------------ *)
(** ** Shape of the call sequence *)

Lemma glow_rings_unfold (g : Globals) (size : Z) :
  glow_rings g size =
    [ ellipse (glow_box size 0) (NEON_COLOR g ++ [60]);
      ellipse (glow_box size 1) (NEON_COLOR g ++ [45]);
      ellipse (glow_box size 2) (NEON_COLOR g ++ [30]) ].
Proof. reflexivity. Qed.

Lemma draw_calls_unfold (g : Globals) (size : Z) :
  draw_calls g size =
    [ polygon (ghost_points size) (GHOST_COLOR g ++ [255]);
      ellipse (head_box size) (GHOST_COLOR g ++ [255]);
      ellipse (socket_box size) (BG_COLOR g ++ [255]);
      ellipse (glow_box size 0) (NEON_COLOR g ++ [60]);
      ellipse (glow_box size 1) (NEON_COLOR g ++ [45]);
      ellipse (glow_box size 2) (NEON_COLOR g ++ [30]);
      ellipse (pupil_box size) (NEON_COLOR g);
      ellipse (highlight_box size) [200; 255; 230] ].
Proof. reflexivity. Qed.

Lemma glow_box_ordered (size i : Z) : 0 <= i <= 2 -> box_ordered (glow_box size i).
Proof.
  intros Hi. pose proof (glow_radius_lower size) as Hg.
  unfold box_ordered, glow_box. lia.
Qed.

Lemma extent_ordered (b : Box) :
  0 <= box_width b -> 0 <= box_height b -> box_ordered b.
Proof.
  destruct b as [[[x0 y0] x1] y1]. unfold box_width, box_height, box_ordered. lia.
Qed.

Lemma ellipse_boxes_ordered (g : Globals) (size : Z) :
  Forall box_ordered (ellipse_boxes (draw_calls g size)).
Proof.
  rewrite draw_calls_unfold. cbn [ellipse_boxes flat_map app].
  pose proof (head_box_extent size) as [? ?].
  pose proof (socket_box_extent size) as [? ?].
  pose proof (pupil_box_extent size) as [? ?].
  pose proof (highlight_box_extent size) as [? ?].
  repeat apply Forall_cons; try apply Forall_nil;
    try (apply glow_box_ordered; lia); apply extent_ordered; lia.
Qed.

Lemma well_ordered_iff (b : Box) : well_ordered b = true <-> box_ordered b.
Proof.
  destruct b as [[[x0 y0] x1] y1]. unfold well_ordered, box_ordered.
  rewrite andb_true_iff, !Z.leb_le. tauto.
Qed.

(* ------------------------------------------------------------------ *)
(** ** Drawing keeps the canvas in shape *)

Section Rendering.

Context {backend : Imaging}.

Lemma paint_shape (cover : Z -> Z -> bool) (ink : Pixel) (im : Canvas) :
  mode (paint cover ink im) = mode im /\
  csize (paint cover ink im) = csize im /\
  length (data (paint cover ink im)) = length (data im).
Proof.
  unfold paint; cbn [mode csize data]. repeat split.
  rewrite length_map, length_combine, length_seq. apply Nat.min_id.
Qed.

Lemma draw_shape (im im' : Canvas) (c : DrawCall) :
  draw im c = Ok im' ->
  mode im' = mode im /\ csize im' = csize im /\
  length (data im') = length (data im).
Proof.
  destruct c as [xy fill|xy fill]; cbn [draw];
    destruct (ink_of fill) as [ink|e]; try discriminate.
  - intros [= <-]. apply paint_shape.
  - destruct (well_ordered xy); [|discriminate].
    intros [= <-]. apply paint_shape.
Qed.

Lemma draw_all_shape (cs : list DrawCall) (im im' : Canvas) :
  draw_all im cs = Ok im' ->
  mode im' = mode im /\ csize im' = csize im /\
  length (data im') = length (data im).
Proof.
  revert im. induction cs as [|c cs IH]; intros im; cbn [draw_all].
  - intros [= <-]. auto.
  - destruct (draw im c) as [im1|e] eqn:Hd; [|discriminate].
    intros H. apply IH in H. apply draw_shape in Hd.
    destruct H as (-> & -> & ->). exact Hd.
Qed.

Lemma draw_returns (im : Canvas) (c : DrawCall) :
  drawable c -> exists im', draw im c = Ok im'.
Proof.
  intros [[ink Hink] Hbox]. destruct c as [xy fill|xy fill];
    cbn [draw fill_of] in *; rewrite Hink.
  - eauto.
  - rewrite Hbox. eauto.
Qed.

Lemma draw_all_returns (cs : list DrawCall) (im : Canvas) :
  Forall drawable cs -> exists im', draw_all im cs = Ok im'.
Proof.
  revert im. induction cs as [|c cs IH]; intros im H; cbn [draw_all].
  - eauto.
  - inversion H as [|? ? Hc Hcs]; subst.
    destruct (draw_returns im c Hc) as [im1 ->]. apply IH, Hcs.
Qed.

(** With the module's constants every call of the sequence is accepted,
    whatever the size. *)
Lemma draw_calls_drawable (size : Z) :
  Forall drawable (draw_calls module_globals size).
Proof.
  pose proof (ellipse_boxes_ordered module_globals size) as Hb.
  rewrite draw_calls_unfold in *. cbn [ellipse_boxes flat_map app] in Hb.
  repeat match goal with
  | H : Forall _ (_ :: _) |- _ =>
      let H1 := fresh in let H2 := fresh in
      inversion H as [|? ? H1 H2]; subst; clear H; apply well_ordered_iff in H1
  end.
  repeat apply Forall_cons; try apply Forall_nil;
    (split; [cbn; eauto | cbn [fill_of]; auto]).
Qed.

Lemma Image_new_blank (size : Z) :
  0 <= size ->
  Image_new "RGBA" (size, size) (BG_COLOR module_globals ++ [255]) = Ok (blank size).
Proof.
  intros H. unfold Image_new. cbn [fst snd].
  destruct (Z.ltb_spec size 0); [lia|]. reflexivity.
Qed.

Lemma Image_new_shape (md : string) (size : Z * Z) (color : list Z) (im : Canvas) :
  Image_new md size color = Ok im -> mode im = md /\ csize im = size.
Proof.
  unfold Image_new. destruct (_ || _); [discriminate|].
  destruct (ink_of color); [|discriminate]. intros [= <-]. auto.
Qed.

(** The canvas of a rendering has the requested size, in any world. *)
Lemma rendering_shape (g : Globals) (size : Z) (im : Canvas) :
  rendering g size = Ok im -> mode im = "RGBA"%string /\ csize im = (size, size).
Proof.
  unfold rendering.
  destruct (Image_new _ _ _) as [img|e] eqn:Hn; [|discriminate].
  apply Image_new_shape in Hn. destruct Hn as [Hm Hs].
  destruct (size <? 8).
  - intros [= <-]. auto.
  - intros H. apply draw_all_shape in H. destruct H as (-> & -> & _). auto.
Qed.

(** With the module's constants, a rendering exists for every
    non-negative size. *)
Lemma rendering_returns (size : Z) :
  0 <= size ->
  exists im, rendering module_globals size = Ok im /\
             mode im = "RGBA"%string /\ csize im = (size, size) /\
             Z.of_nat (length (data im)) = size * size.
Proof.
  intros H. unfold rendering. rewrite (Image_new_blank size H).
  assert (Hlen : Z.of_nat (length (data (blank size))) = size * size).
  { cbn [blank data]. rewrite repeat_length. nia. }
  destruct (size <? 8).
  - exists (blank size). auto.
  - destruct (draw_all_returns (draw_calls module_globals size) (blank size)
                (draw_calls_drawable size)) as [im Him].
    exists im. split; [exact Him|].
    apply draw_all_shape in Him. destruct Him as (-> & -> & ->). auto.
Qed.

(** [create_ghost_mask] reads the module constants, computes, and leaves
    the world as it found it. *)
Lemma create_ghost_mask_pure (size : Z) (w : World) :
  create_ghost_mask size w = lift (rendering (globals w) size) w.
Proof.
  unfold create_ghost_mask, rendering, bind, read_globals, lift, ret.
  destruct (Image_new _ _ _) as [img|e]; [|reflexivity].
  destruct (size <? 8); reflexivity.
Qed.

End Rendering.

(* ------------------------------------------------------------------ *)
(** ** Properties of the renderer *)

Section RendererProperties.

Context {backend : Imaging}.

(** C1.  For every size of at least 8, [create_ghost_mask] returns (it
    does not raise) a canvas in mode RGBA whose size is [size] by [size]
    and which holds [size * size] pixels; the world is left as it was. *)
Theorem create_ghost_mask_canvas (size : Z) (w : World) :
  8 <= size ->
  globals w = module_globals ->
  exists img,
    create_ghost_mask size w = Ok (img, w) /\
    mode img = "RGBA"%string /\
    csize img = (size, size) /\
    Z.of_nat (length (data img)) = size * size.
Proof.
  intros Hsize Hg.
  destruct (rendering_returns size) as (img & Hr & Hm & Hs & Hl); [lia|].
  exists img. rewrite create_ghost_mask_pure, Hg, Hr. auto.
Qed.

(** C2.  For every positive size below 8, [create_ghost_mask] returns the
    canvas exactly as [Image.new] made it: nothing is drawn, and every
    pixel is the background colour (10, 10, 15) with alpha 255. *)
Theorem create_ghost_mask_small (size : Z) (w : World) :
  0 < size < 8 ->
  globals w = module_globals ->
  create_ghost_mask size w = Ok (blank size, w) /\
  ink_of (BG_COLOR module_globals ++ [255]) = Ok (10, 10, 15, 255) /\
  Z.of_nat (length (data (blank size))) = size * size /\
  Forall (fun p => p = (10, 10, 15, 255)) (data (blank size)) /\
  forall x y, 0 <= x < size -> 0 <= y < size ->
              pixel_at (blank size) x y = Some (10, 10, 15, 255).
Proof.
  intros Hsize Hg. split; [|split; [|split; [|split]]].
  - rewrite create_ghost_mask_pure, Hg. unfold rendering.
    rewrite Image_new_blank by lia.
    destruct (Z.ltb_spec size 8); [reflexivity | lia].
  - reflexivity.
  - cbn [blank data]. rewrite repeat_length. nia.
  - cbn [blank data]. apply Forall_forall. intros p Hp.
    apply repeat_spec in Hp. exact Hp.
  - intros x y Hx Hy. unfold pixel_at. cbn [blank csize data fst snd].
    destruct (Z.leb_spec 0 x); [|lia]. destruct (Z.ltb_spec x size); [|lia].
    destruct (Z.leb_spec 0 y); [|lia]. destruct (Z.ltb_spec y size); [|lia].
    cbn [andb]. apply nth_error_repeat. nia.
Qed.

(** C8.  [create_ghost_mask] is a function of its size argument (and of
    the module constants it reads): in two worlds that agree on the
    constants, equal sizes give the same outcome, canvas for canvas; and
    the call changes nothing in the world, neither the files, nor the
    printed output, nor the constants. *)
Theorem create_ghost_mask_deterministic (size : Z) (w1 w2 : World) :
  globals w1 = globals w2 ->
  (exists r : Res Canvas,
     create_ghost_mask size w1 = lift r w1 /\
     create_ghost_mask size w2 = lift r w2) /\
  (forall img1 img2 w1' w2',
     create_ghost_mask size w1 = Ok (img1, w1') ->
     create_ghost_mask size w2 = Ok (img2, w2') ->
     img1 = img2 /\ data img1 = data img2) /\
  (forall img w1',
     create_ghost_mask size w1 = Ok (img, w1') ->
     files w1' = files w1 /\ stdout w1' = stdout w1 /\ globals w1' = globals w1).
Proof.
  intros Hg. split; [|split].
  - exists (rendering (globals w1) size).
    rewrite !create_ghost_mask_pure, Hg. auto.
  - intros img1 img2 w1' w2'. rewrite !create_ghost_mask_pure, Hg.
    unfold lift. destruct (rendering (globals w2) size); [|discriminate].
    intros [= <- _] [= <- _]. auto.
  - intros img w1'. rewrite create_ghost_mask_pure. unfold lift.
    destruct (rendering (globals w1) size); [|discriminate].
    intros [= _ <-]. auto.
Qed.

End RendererProperties.

(** What the clamps do achieve.  For every size of at least 8, every
    clamped measurement is at least 1 pixel and every drawn shape has a
    non-negative extent; every shape other than the third glow ring and
    the highlight has a strictly positive extent, and from size 64 on so
    have these two. *)
Theorem measurements_and_extents (g : Globals) (size : Z) :
  8 <= size ->
  Forall (fun m => 1 <= m) (measurements size) /\
  Forall nonneg_extent (draw_calls g size) /\
  Forall (fun c => positive_extent c
                   \/ c = ellipse (glow_box size 2) (NEON_COLOR g ++ [30])
                   \/ c = ellipse (highlight_box size) [200; 255; 230])
         (draw_calls g size) /\
  (64 <= size -> Forall positive_extent (draw_calls g size)).
Proof.
  intros Hsize.
  pose proof (body_extent size (GHOST_COLOR g ++ [255])) as Hbody.
  pose proof (head_box_extent size) as Hhead.
  pose proof (socket_box_extent size) as Hsock.
  pose proof (pupil_box_extent size) as Hpup.
  pose proof (highlight_box_extent size) as Hhl.
  pose proof (glow_radius_lower size) as Hg.
  pose proof (glow_box_extent size 0) as [Hw0 Hh0].
  pose proof (glow_box_extent size 1) as [Hw1 Hh1].
  pose proof (glow_box_extent size 2) as [Hw2 Hh2].
  split; [apply measurements_clamped|].
  rewrite draw_calls_unfold.
  split; [|split].
  - repeat apply Forall_cons; try apply Forall_nil;
      unfold nonneg_extent, positive_extent in *;
      cbn [bounding_box] in *; lia.
  - repeat apply Forall_cons; try apply Forall_nil; auto;
      left; unfold positive_extent; cbn [bounding_box]; lia.
  - intros Hbig.
    pose proof (glow_radius_large size ltac:(lia)) as Hg5.
    pose proof (highlight_box_extent_large size Hbig) as Hhl'.
    repeat apply Forall_cons; try apply Forall_nil; auto;
      unfold positive_extent; cbn [bounding_box]; lia.
Qed.

(** C5.  The scale factor is [max(size / 64, 0.5)]; it is never below 0.5
    and it does not decrease when the size grows. *)
Theorem scale_factor (a b : Z) :
  a <= b ->
  (s a == Qmax (inject_Z a / 64) 0.5 /\ 0.5 <= s a /\ s a <= s b)%Q.
Proof.
  intros H. split; [reflexivity|]. split; [apply s_lower | apply s_monotone, H].
Qed.

(** C10.  For every size of at least 8, every box handed to
    [draw.ellipse] is well ordered: its left edge is not right of its
    right edge, its top not below its bottom; the library's check accepts
    each of them. *)
Theorem ellipse_boxes_well_ordered (g : Globals) (size : Z) :
  8 <= size ->
  length (ellipse_boxes (draw_calls g size)) = 7%nat /\
  Forall box_ordered (ellipse_boxes (draw_calls g size)) /\
  Forall (fun b => well_ordered b = true) (ellipse_boxes (draw_calls g size)).
Proof.
  intros Hsize. split; [reflexivity|].
  pose proof (ellipse_boxes_ordered g size) as H. split; [exact H|].
  eapply Forall_impl; [|exact H]. intros b. apply well_ordered_iff.
Qed.

(* ------------------------------------------------------------------ *)
(** ** The calls the renderer makes, layer by layer *)

Section DrawnLayers.

Context {backend : Imaging}.

Lemma draw_all_app (cs1 cs2 : list DrawCall) (im : Canvas) :
  draw_all im (cs1 ++ cs2) =
    match draw_all im cs1 with
    | Ok im1 => draw_all im1 cs2
    | Raise e => Raise e
    end.
Proof.
  revert im. induction cs1 as [|c cs1 IH]; intros im; cbn [draw_all app].
  - reflexivity.
  - destruct (draw im c); [apply IH | reflexivity].
Qed.

(** The canvas of a rendering is the blank canvas with the calls made
    drawn on it, in order. *)
Lemma rendering_calls_made (size : Z) :
  0 <= size ->
  rendering module_globals size =
    draw_all (blank size) (calls_made module_globals size).
Proof.
  intros H. unfold rendering, calls_made. rewrite (Image_new_blank size H).
  destruct (size <? 8); reflexivity.
Qed.

Lemma draw_ellipse_accepted (im : Canvas) (b : Box) (fill : list Z) (ink : Pixel) :
  ink_of fill = Ok ink ->
  box_ordered b ->
  draw im (ellipse b fill) = Ok (paint (ellipse_cover b) ink im).
Proof.
  intros Hink Hb. apply well_ordered_iff in Hb. cbn [draw].
  rewrite Hink, Hb. reflexivity.
Qed.

Lemma eye_boxes_ordered (size : Z) :
  box_ordered (socket_box size) /\ box_ordered (pupil_box size) /\
  box_ordered (highlight_box size).
Proof.
  pose proof (socket_box_extent size) as [? ?].
  pose proof (pupil_box_extent size) as [? ?].
  pose proof (highlight_box_extent size) as [? ?].
  split; [|split]; apply extent_ordered; lia.
Qed.

(** The six layers of the eye, painted in order over the canvas that
    holds the body and the head. *)
Lemma eye_painted (size : Z) (base : Canvas) :
  draw_all base (skipn 2 (draw_calls module_globals size)) =
    Ok (paint (ellipse_cover (highlight_box size)) (200, 255, 230, 255)
       (paint (ellipse_cover (pupil_box size)) (0, 255, 170, 255)
       (paint (ellipse_cover (glow_box size 2)) (0, 255, 170, 30)
       (paint (ellipse_cover (glow_box size 1)) (0, 255, 170, 45)
       (paint (ellipse_cover (glow_box size 0)) (0, 255, 170, 60)
       (paint (ellipse_cover (socket_box size)) (10, 10, 15, 255) base)))))).
Proof.
  destruct (eye_boxes_ordered size) as (Hs & Hp & Hh).
  rewrite draw_calls_unfold. cbn [skipn draw_all].
  rewrite (draw_ellipse_accepted _ _ _ (10, 10, 15, 255)) by (reflexivity || assumption).
  rewrite (draw_ellipse_accepted _ _ _ (0, 255, 170, 60))
    by (reflexivity || (apply glow_box_ordered; lia)).
  rewrite (draw_ellipse_accepted _ _ _ (0, 255, 170, 45))
    by (reflexivity || (apply glow_box_ordered; lia)).
  rewrite (draw_ellipse_accepted _ _ _ (0, 255, 170, 30))
    by (reflexivity || (apply glow_box_ordered; lia)).
  rewrite (draw_ellipse_accepted _ _ _ (0, 255, 170, 255)) by (reflexivity || assumption).
  rewrite (draw_ellipse_accepted _ _ _ (200, 255, 230, 255)) by (reflexivity || assumption).
  reflexivity.
Qed.

(** For a size of at least 8 the rendering is the blank canvas with the
    body and the head drawn on it, then the six layers of the eye. *)
Lemma rendering_layers (size : Z) :
  8 <= size ->
  exists base img,
    draw_all (blank size) (firstn 2 (draw_calls module_globals size)) = Ok base /\
    rendering module_globals size = Ok img /\
    img = paint (ellipse_cover (highlight_box size)) (200, 255, 230, 255)
         (paint (ellipse_cover (pupil_box size)) (0, 255, 170, 255)
         (paint (ellipse_cover (glow_box size 2)) (0, 255, 170, 30)
         (paint (ellipse_cover (glow_box size 1)) (0, 255, 170, 45)
         (paint (ellipse_cover (glow_box size 0)) (0, 255, 170, 60)
         (paint (ellipse_cover (socket_box size)) (10, 10, 15, 255) base))))).
Proof.
  intros H. destruct (rendering_returns size ltac:(lia)) as (img & Hr & _).
  pose proof Hr as Hd. rewrite rendering_calls_made in Hd by lia.
  unfold calls_made in Hd. destruct (Z.ltb_spec size 8); [lia|].
  rewrite <- (firstn_skipn 2 (draw_calls module_globals size)), draw_all_app in Hd.
  destruct (draw_all (blank size) (firstn 2 (draw_calls module_globals size)))
    as [base|e] eqn:Hb; [|discriminate].
  rewrite eye_painted in Hd. injection Hd as <-.
  exists base. eexists. split; [reflexivity|]. split; [exact Hr | reflexivity].
Qed.


(** C7.  For every size of at least 8, [create_ghost_mask] draws the eye
    over the body and the head in this order, each layer painted over the
    ones before: the socket in the background colour with alpha 255, three
    glow rings each strictly inside the one before and with alpha below
    255, the pupil in the opaque neon colour, and the highlight in a
    near-white colour, whose box lies inside the pupil's box, left of and
    above the pupil's centre. *)
Theorem eye_layers (g : Globals) (size : Z) (w : World) :
  8 <= size ->
  globals w = module_globals ->
  (exists base img,
     draw_all (blank size)
       [ polygon (ghost_points size) (GHOST_COLOR module_globals ++ [255]);
         ellipse (head_box size) (GHOST_COLOR module_globals ++ [255]) ] = Ok base /\
     create_ghost_mask size w = Ok (img, w) /\
     img = paint (ellipse_cover (highlight_box size)) (200, 255, 230, 255)
          (paint (ellipse_cover (pupil_box size)) (0, 255, 170, 255)
          (paint (ellipse_cover (glow_box size 2)) (0, 255, 170, 30)
          (paint (ellipse_cover (glow_box size 1)) (0, 255, 170, 45)
          (paint (ellipse_cover (glow_box size 0)) (0, 255, 170, 60)
          (paint (ellipse_cover (socket_box size)) (10, 10, 15, 255) base)))))) /\
  calls_made g size = draw_calls g size /\
  draw_calls g size =
    [ polygon (ghost_points size) (GHOST_COLOR g ++ [255]);
      ellipse (head_box size) (GHOST_COLOR g ++ [255]) ]
    ++ [ ellipse (socket_box size) (BG_COLOR g ++ [255]);
         ellipse (glow_box size 0) (NEON_COLOR g ++ [60]);
         ellipse (glow_box size 1) (NEON_COLOR g ++ [45]);
         ellipse (glow_box size 2) (NEON_COLOR g ++ [30]);
         ellipse (pupil_box size) (NEON_COLOR g);
         ellipse (highlight_box size) [200; 255; 230] ] /\
  map (fun c => ink_of (fill_of c)) (skipn 2 (draw_calls module_globals size)) =
    [ Ok (10, 10, 15, 255);
      Ok (0, 255, 170, 60); Ok (0, 255, 170, 45); Ok (0, 255, 170, 30);
      Ok (0, 255, 170, 255);
      Ok (200, 255, 230, 255) ] /\
  strictly_inside (glow_box size 1) (glow_box size 0) /\
  strictly_inside (glow_box size 2) (glow_box size 1) /\
  box_ordered (glow_box size 2) /\
  (let '(hx0, hy0, hx1, hy1) := highlight_box size in
   let '(px0, py0, px1, py1) := pupil_box size in
   px0 <= hx0 /\ py0 <= hy0 /\ hx0 <= hx1 /\ hy0 <= hy1 /\
   2 * hx1 < px0 + px1 /\ 2 * hy1 < py0 + py1) /\
  box_width (highlight_box size) < box_width (pupil_box size) /\
  box_height (highlight_box size) < box_height (pupil_box size).
Proof.
  intros Hsize Hg.
  split.
  { destruct (rendering_layers size Hsize) as (base & img & Hb & Hr & Himg).
    exists base, img. split; [exact Hb|].
    split; [rewrite create_ghost_mask_pure, Hg, Hr; reflexivity | exact Himg]. }
  split.
  { unfold calls_made. destruct (Z.ltb_spec size 8); [lia | reflexivity]. }
  split; [reflexivity|]. split; [reflexivity|].
  split; [unfold strictly_inside, glow_box; lia|].
  split; [unfold strictly_inside, glow_box; lia|].
  split; [apply glow_box_ordered; lia|].
  split; [|split].
  - unfold highlight_box, pupil_box. repeat split; geometry.
  - geometry.
  - geometry.
Qed.

End DrawnLayers.

(* ------------------------------------------------------------------ *)
(** ** The export driver *)

Section ExportDriver.

Context {backend : Imaging}.

Lemma size_eqb_refl (a : Z * Z) : size_eqb a a = true.
Proof. unfold size_eqb. rewrite !Z.eqb_refl. reflexivity. Qed.

Lemma size_eqb_eq (a b : Z * Z) : size_eqb a b = true -> a = b.
Proof.
  destruct a, b. unfold size_eqb. cbn [fst snd].
  rewrite andb_true_iff, !Z.eqb_eq. intros [-> ->]. reflexivity.
Qed.

(** Resizing a canvas to the size it has gives the canvas back. *)
Lemma resize_same (im : Canvas) (size : Z * Z) (flt : Filter) :
  csize im = size -> resize im size flt = Ok im.
Proof. intros <-. unfold resize. rewrite size_eqb_refl. reflexivity. Qed.

Lemma create_ghost_mask_run (size : Z) (w : World) (c : Canvas) :
  globals w = module_globals ->
  rendering module_globals size = Ok c ->
  create_ghost_mask size w = Ok (c, w).
Proof. intros Hg Hr. rewrite create_ghost_mask_pure, Hg, Hr. reflexivity. Qed.

Lemma render_frames_run (sizes : list Z) (cs : list Canvas) (w : World) :
  globals w = module_globals ->
  Forall2 (fun size c => rendering module_globals size = Ok c) sizes cs ->
  render_frames sizes w = Ok (cs, w).
Proof.
  intros Hg H. induction H as [|size c sizes cs Hr _ IH]; [reflexivity|].
  cbn [render_frames]. unfold bind at 1.
  rewrite (create_ghost_mask_run size w c Hg Hr).
  unfold bind at 1.
  rewrite (resize_same c (size, size) LANCZOS) by (apply (rendering_shape _ _ _ Hr)).
  cbn [lift]. unfold bind at 1. rewrite IH. reflexivity.
Qed.

Lemma renderings_exist (sizes : list Z) :
  Forall (fun z => 0 <= z) sizes ->
  exists cs, Forall2 (fun size c => rendering module_globals size = Ok c) sizes cs.
Proof.
  induction 1 as [|size sizes Hs _ [cs IH]]; [exists []; constructor|].
  destruct (rendering_returns size Hs) as (c & Hc & _).
  exists (c :: cs). constructor; assumption.
Qed.

Lemma insert_size_In (x y : Z * Z) (l : list (Z * Z)) :
  In x (insert_size y l) -> x = y \/ In x l.
Proof.
  induction l as [|z l IH]; cbn [insert_size].
  - intros [<-|[]]. auto.
  - destruct (size_ltb y z).
    + intros [<-|H]; auto.
    + destruct (size_eqb y z); [auto|].
      intros [<-|H]; [right; left; reflexivity|].
      destruct (IH H); [auto | right; right; assumption].
Qed.

Lemma sorted_set_In (x : Z * Z) (l : list (Z * Z)) :
  In x (sorted_set l) -> In x l.
Proof.
  induction l as [|y l IH]; cbn [sorted_set fold_right]; [auto|].
  intros H. apply insert_size_In in H. destruct H as [->|H].
  - left; reflexivity.
  - right. apply IH, H.
Qed.

(** When the sizes requested are those of the images handed over, every
    frame the ICO writer stores is one of these images. *)
Lemma ico_frames_provided (first : Canvas) (others : list Canvas) :
  Forall (fun f => In f (first :: others))
         (ico_frames first (map csize (first :: others)) others).
Proof.
  unfold ico_frames. destruct (csize first) as [width height] eqn:Hc.
  apply Forall_flat_map, Forall_forall. intros size Hin.
  apply sorted_set_In in Hin.
  destruct (_ || _); [constructor|].
  destruct (find _ (first :: others)) as [p|] eqn:Hf.
  - apply find_some in Hf. constructor; [apply Hf | constructor].
  - exfalso. apply in_map_iff in Hin. destruct Hin as (p & Hp & Hin).
    apply (find_none _ _ Hf) in Hin. cbn beta in Hin.
    rewrite Hp, size_eqb_refl in Hin. discriminate.
Qed.

Lemma Forall2_In_r {A B} (R : A -> B -> Prop) (l1 : list A) (l2 : list B) (y : B) :
  Forall2 R l1 l2 -> In y l2 -> exists x, In x l1 /\ R x y.
Proof.
  induction 1 as [|a b l1 l2 Hab _ IH]; [intros []|].
  intros [<-|Hy].
  - exists a. split; [left; reflexivity | exact Hab].
  - destruct (IH Hy) as (x & Hx & Hr). exists x. split; [right|]; assumption.
Qed.

Lemma insert_size_In_inv (x y : Z * Z) (l : list (Z * Z)) :
  x = y \/ In x l -> In x (insert_size y l).
Proof.
  induction l as [|z l IH]; cbn [insert_size].
  - intros [->|[]]. left; reflexivity.
  - destruct (size_ltb y z).
    + intros [->|H]; [left; reflexivity | right; exact H].
    + destruct (size_eqb y z) eqn:Heq.
      * apply size_eqb_eq in Heq. subst z.
        intros [->|H]; [left; reflexivity | exact H].
      * intros [->|[->|H]].
        -- right. apply IH. left; reflexivity.
        -- left; reflexivity.
        -- right. apply IH. right; exact H.
Qed.

Lemma sorted_set_In_inv (x : Z * Z) (l : list (Z * Z)) :
  In x l -> In x (sorted_set l).
Proof.
  induction l as [|y l IH]; cbn [sorted_set fold_right]; [auto|].
  intros [->|H]; apply insert_size_In_inv; [left; reflexivity | right; apply IH, H].
Qed.

(** The sizes of the stored frames: the requested sizes, in ascending
    order and without repetition, minus those that exceed the image being
    saved or 256. *)
Lemma ico_frames_sizes (first : Canvas) (others : list Canvas) :
  map csize (ico_frames first (map csize (first :: others)) others) =
  filter (fun size => negb ((fst (csize first) <? fst size)
                            || (snd (csize first) <? snd size)
                            || (256 <? fst size) || (256 <? snd size)))
         (sorted_set (map csize (first :: others))).
Proof.
  unfold ico_frames. destruct (csize first) as [width height] eqn:Hc.
  cbn [fst snd].
  assert (Hin : forall size, In size (sorted_set (map csize (first :: others))) ->
                             In size (map csize (first :: others))).
  { intros size. apply sorted_set_In. }
  induction (sorted_set (map csize (first :: others))) as [|size l IH];
    [reflexivity|].
  cbn [flat_map filter]. rewrite map_app, IH by (intros z Hz; apply Hin; right; exact Hz).
  destruct (_ || _); cbn [negb]; [reflexivity|].
  destruct (find _ (first :: others)) as [p|] eqn:Hf.
  - apply find_some in Hf. destruct Hf as [_ Hp]. apply size_eqb_eq in Hp.
    cbn [map app]. rewrite Hp. reflexivity.
  - exfalso. specialize (Hin size (or_introl eq_refl)).
    apply in_map_iff in Hin. destruct Hin as (p & Hp & Hin).
    apply (find_none _ _ Hf) in Hin. cbn beta in Hin.
    rewrite Hp, size_eqb_refl in Hin. discriminate.
Qed.

Lemma renderings_sizes (sizes : list Z) (cs : list Canvas) :
  Forall2 (fun size c => rendering module_globals size = Ok c) sizes cs ->
  map csize cs = map square sizes.
Proof.
  induction 1 as [|size c sizes cs Hr _ IH]; [reflexivity|].
  cbn [map]. rewrite IH. f_equal. apply (rendering_shape _ _ _ Hr).
Qed.

Lemma sorted_set_squares (sizes : list Z) (size : Z * Z) :
  In size (sorted_set (map square sizes)) -> exists z, In z sizes /\ size = square z.
Proof.
  intros H. apply sorted_set_In, in_map_iff in H.
  destruct H as (z & <- & Hz). eauto.
Qed.

(** The sizes stored by [create_favicon_ico], in terms of its argument:
    the image saved is the rendering of the first size. *)
Lemma stored_sizes (first : Z) (rest : list Z) (c0 : Canvas) (others : list Canvas) :
  Forall2 (fun size c => rendering module_globals size = Ok c)
          (first :: rest) (c0 :: others) ->
  map csize (ico_frames c0 (map csize (c0 :: others)) others) =
    filter (fun size => (fst size <=? first) && (fst size <=? 256))
           (sorted_set (map square (first :: rest))).
Proof.
  intros Hcs. rewrite ico_frames_sizes, (renderings_sizes _ _ Hcs).
  assert (H0 : csize c0 = square first).
  { inversion Hcs; subst. apply (rendering_shape module_globals first c0). assumption. }
  rewrite H0. cbn [square fst snd]. apply filter_ext_in.
  intros size Hin. apply sorted_set_squares in Hin.
  destruct Hin as (z & _ & ->). cbn [square fst snd].
  destruct (Z.ltb_spec first z), (Z.ltb_spec 256 z),
           (Z.leb_spec z first), (Z.leb_spec z 256); cbn; (reflexivity || lia).
Qed.

(** A requested size that exceeds neither the first size nor 256 has its
    frame. *)
Lemma stored_frame (first : Z) (rest : list Z) (c0 : Canvas) (others : list Canvas)
    (z : Z) :
  Forall2 (fun size c => rendering module_globals size = Ok c)
          (first :: rest) (c0 :: others) ->
  In z (first :: rest) -> z <= first -> z <= 256 ->
  exists f, In f (ico_frames c0 (map csize (c0 :: others)) others) /\
            csize f = square z.
Proof.
  intros Hcs Hz H1 H2.
  assert (Hin : In (square z)
                   (map csize (ico_frames c0 (map csize (c0 :: others)) others))).
  { rewrite (stored_sizes _ _ _ _ Hcs). apply filter_In. split.
    - apply sorted_set_In_inv, in_map, Hz.
    - cbn [square fst]. apply andb_true_iff. rewrite !Z.leb_le. lia. }
  apply in_map_iff in Hin. destruct Hin as (f & Hc & Hf). eauto.
Qed.

Lemma is_empty_square (c : Canvas) (z : Z) :
  csize c = square z -> is_empty c = (z =? 0).
Proof.
  intros H. unfold is_empty. rewrite H. cbn [square fst snd]. apply orb_diag.
Qed.

Lemma frames_accepted (first : Z) (rest : list Z) (c0 : Canvas) (others : list Canvas) :
  Forall2 (fun size c => rendering module_globals size = Ok c)
          (first :: rest) (c0 :: others) ->
  Forall (fun z => 0 < z) (first :: rest) ->
  first <= 256 ->
  frames_refused (ico_frames c0 (map csize (c0 :: others)) others) = false.
Proof.
  intros Hcs Hpos H256.
  destruct (stored_frame first rest c0 others first Hcs (or_introl eq_refl))
    as (f0 & Hf0 & _); [lia | lia |].
  assert (Hne : existsb is_empty (ico_frames c0 (map csize (c0 :: others)) others)
                = false).
  { apply not_true_is_false. intros Hex. apply existsb_exists in Hex.
    destruct Hex as (f & Hf & He).
    pose proof (ico_frames_provided c0 others) as Hprov.
    rewrite Forall_forall in Hprov. specialize (Hprov f Hf).
    destruct (Forall2_In_r _ _ _ _ Hcs Hprov) as (z & Hz & Hr).
    rewrite Forall_forall in Hpos. specialize (Hpos z Hz).
    rewrite (is_empty_square f z) in He by (apply (rendering_shape _ _ _ Hr)).
    apply Z.eqb_eq in He. lia. }
  unfold frames_refused.
  destruct (ico_frames c0 (map csize (c0 :: others)) others); [contradiction | exact Hne].
Qed.

Lemma frames_refused_zero (first : Z) (rest : list Z) (c0 : Canvas)
    (others : list Canvas) :
  Forall2 (fun size c => rendering module_globals size = Ok c)
          (first :: rest) (c0 :: others) ->
  Forall (fun z => 0 <= z) (first :: rest) ->
  In 0 (first :: rest) ->
  frames_refused (ico_frames c0 (map csize (c0 :: others)) others) = true.
Proof.
  intros Hcs Hpos H0.
  assert (Hfirst : 0 <= first) by (inversion Hpos; assumption).
  destruct (stored_frame first rest c0 others 0 Hcs H0) as (f & Hf & Hc); [lia | lia |].
  assert (Hex : existsb is_empty (ico_frames c0 (map csize (c0 :: others)) others)
                = true).
  { apply existsb_exists. exists f. split; [exact Hf|].
    rewrite (is_empty_square f 0 Hc). reflexivity. }
  unfold frames_refused.
  destruct (ico_frames c0 (map csize (c0 :: others)) others); [reflexivity | exact Hex].
Qed.

(** [create_favicon_ico], once the loop has rendered its images. *)
Lemma create_favicon_ico_cases (sizes : list Z) (first : Canvas)
    (others : list Canvas) (w : World) :
  globals w = module_globals ->
  Forall2 (fun size c => rendering module_globals size = Ok c) sizes (first :: others) ->
  create_favicon_ico sizes w =
    if writable w ico_path
    then if frames_refused (ico_frames first (map csize (first :: others)) others)
         then Raise EncoderError
         else Ok (ico_path,
                  {| globals := globals w;
                     files := (ico_path,
                               ICO_file (ico_frames first (map csize (first :: others))
                                                    others))
                              :: filter (fun e => negb (String.eqb (fst e) ico_path))
                                        (files w);
                     stdout := stdout w ++ [("Created " ++ ico_path)%string];
                     writable := writable w |})
    else Raise OSError.
Proof.
  intros Hg H. unfold create_favicon_ico. unfold bind at 1.
  rewrite (render_frames_run sizes (first :: others) w Hg H).
  unfold bind at 1, save_ico, save_checked, write_file.
  fold ico_path.
  destruct (writable w ico_path); [|reflexivity].
  destruct (frames_refused (ico_frames first (map csize (first :: others)) others));
    reflexivity.
Qed.

Lemma create_favicon_ico_run (first : Z) (rest : list Z) (c0 : Canvas)
    (others : list Canvas) (w : World) :
  globals w = module_globals ->
  Forall2 (fun size c => rendering module_globals size = Ok c)
          (first :: rest) (c0 :: others) ->
  Forall (fun z => 0 < z) (first :: rest) ->
  first <= 256 ->
  writable w ico_path = true ->
  create_favicon_ico (first :: rest) w =
    Ok (ico_path,
        {| globals := globals w;
           files := (ico_path,
                     ICO_file (ico_frames c0 (map csize (c0 :: others)) others))
                    :: filter (fun e => negb (String.eqb (fst e) ico_path)) (files w);
           stdout := stdout w ++ [("Created " ++ ico_path)%string];
           writable := writable w |}).
Proof.
  intros Hg H Hpos H256 Hw.
  rewrite (create_favicon_ico_cases _ c0 others w Hg H), Hw.
  rewrite (frames_accepted first rest c0 others H Hpos H256). reflexivity.
Qed.

(** [create_png], once the canvas is rendered. *)
Lemma create_png_cases (size : Z) (filename : string) (w : World) (c : Canvas) :
  globals w = module_globals ->
  rendering module_globals size = Ok c ->
  create_png size filename w =
    if writable w (public_dir ++ filename)
    then if (size =? 0)
         then Raise EncoderError
         else Ok ((public_dir ++ filename)%string,
                  {| globals := globals w;
                     files := ((public_dir ++ filename)%string, PNG_file c)
                              :: filter (fun e => negb (String.eqb (fst e)
                                                          (public_dir ++ filename)))
                                        (files w);
                     stdout := stdout w
                               ++ [("Created " ++ public_dir ++ filename)%string];
                     writable := writable w |})
    else Raise OSError.
Proof.
  intros Hg Hr. unfold create_png. unfold bind at 1.
  rewrite (create_ghost_mask_run size w c Hg Hr).
  unfold bind at 1, save_png, save_checked, write_file, frames_refused.
  cbn [existsb].
  rewrite orb_false_r, (is_empty_square c size) by (apply (rendering_shape _ _ _ Hr)).
  destruct (writable w (public_dir ++ filename)); [|reflexivity].
  destruct (size =? 0); reflexivity.
Qed.

Lemma create_png_run (size : Z) (filename : string) (w : World) (c : Canvas) :
  globals w = module_globals ->
  rendering module_globals size = Ok c ->
  0 < size ->
  writable w (public_dir ++ filename) = true ->
  create_png size filename w =
    Ok ((public_dir ++ filename)%string,
        {| globals := globals w;
           files := ((public_dir ++ filename)%string, PNG_file c)
                    :: filter (fun e => negb (String.eqb (fst e) (public_dir ++ filename)))
                              (files w);
           stdout := stdout w ++ [("Created " ++ public_dir ++ filename)%string];
           writable := writable w |}).
Proof.
  intros Hg Hr Hpos Hw. rewrite (create_png_cases size filename w c Hg Hr), Hw.
  destruct (Z.eqb_spec size 0); [lia | reflexivity].
Qed.

(** With the 16-pixel canvas as the image being saved, the writer keeps
    the 16-pixel frame and ignores the five larger sizes. *)
Lemma ico_frames_default (c16 c32 c48 c64 c128 c256 : Canvas) :
  csize c16 = (16, 16) -> csize c32 = (32, 32) -> csize c48 = (48, 48) ->
  csize c64 = (64, 64) -> csize c128 = (128, 128) -> csize c256 = (256, 256) ->
  ico_frames c16 (map csize [c16; c32; c48; c64; c128; c256])
             [c32; c48; c64; c128; c256] = [c16].
Proof.
  intros H16 H32 H48 H64 H128 H256. unfold ico_frames. cbn [map].
  rewrite H16, H32, H48, H64, H128, H256.
  cbn [sorted_set fold_right insert_size size_ltb size_eqb fst snd
       Z.ltb Z.eqb Z.compare Pos.compare Pos.compare_cont orb andb
       flat_map app].
  cbn [find]. rewrite H16. reflexivity.
Qed.

End ExportDriver.

Section ExportProperties.

Context {backend : Imaging}.

(** C9.  In [create_favicon_ico], every canvas [create_ghost_mask(size)]
    returns already has the size asked of [resize], which therefore hands
    the same canvas back: the images collected by the loop are the direct
    renderings, and every frame stored in the ICO file is the direct
    rendering of one of the sizes.  (Sizes are positive: an image without
    pixels cannot be saved.  The file is written when its path can be
    opened and the first size, that of the image saved, is at most 256.) *)
Theorem ico_frames_are_renderings (sizes : list Z) (w : World) :
  globals w = module_globals ->
  Forall (fun z => 0 < z) sizes ->
  sizes <> [] ->
  exists images,
    render_frames sizes w = Ok (images, w) /\
    Forall2 (fun size im =>
               create_ghost_mask size w = Ok (im, w) /\
               csize im = (size, size) /\
               resize im (size, size) LANCZOS = Ok im) sizes images /\
    (forall path w',
       create_favicon_ico sizes w = Ok (path, w') ->
       exists frames,
         path = ico_path /\
         lookup_file ico_path w' = Some (ICO_file frames) /\
         frames <> [] /\
         Forall (fun f => exists size,
                            In size sizes /\
                            create_ghost_mask size w = Ok (f, w) /\
                            resize f (size, size) LANCZOS = Ok f) frames) /\
    (hd 0 sizes <= 256 -> writable w ico_path = true ->
     exists w', create_favicon_ico sizes w = Ok (ico_path, w')).
Proof.
  intros Hg Hpos Hne.
  assert (Hnn : Forall (fun z => 0 <= z) sizes).
  { eapply Forall_impl; [|exact Hpos]. cbn beta. lia. }
  destruct (renderings_exist sizes Hnn) as [cs Hcs].
  assert (Hdirect : Forall2 (fun size im =>
               create_ghost_mask size w = Ok (im, w) /\
               csize im = (size, size) /\
               resize im (size, size) LANCZOS = Ok im) sizes cs).
  { eapply Forall2_impl; [|exact Hcs]. intros size c Hr. cbn beta in Hr.
    pose proof (rendering_shape _ _ _ Hr) as [_ Hs].
    split; [apply create_ghost_mask_run; assumption|].
    split; [exact Hs | apply resize_same, Hs]. }
  destruct cs as [|c0 others].
  { inversion Hcs; subst. contradiction. }
  destruct sizes as [|first rest]; [contradiction|].
  exists (c0 :: others).
  split; [apply render_frames_run; assumption|].
  split; [exact Hdirect|].
  split.
  - intros path w'. rewrite (create_favicon_ico_cases _ c0 others w Hg Hcs).
    destruct (writable w ico_path); [|discriminate].
    destruct (frames_refused _) eqn:Href; [discriminate|].
    intros [= <- <-].
    exists (ico_frames c0 (map csize (c0 :: others)) others).
    split; [reflexivity|]. split.
    { unfold lookup_file. cbn [files find fst]. rewrite String.eqb_refl. reflexivity. }
    split.
    { intros Hnil. rewrite Hnil in Href. discriminate. }
    eapply Forall_impl; [|apply ico_frames_provided].
    intros f Hf. cbn beta in Hf.
    destruct (Forall2_In_r _ _ _ _ Hdirect Hf) as (size & Hin & Hrun & _ & Hres).
    exists size. auto.
  - cbn [hd]. intros H256 Hw. eexists.
    exact (create_favicon_ico_run first rest c0 others w Hg Hcs Hpos H256 Hw).
Qed.

(** C6, as the script behaves.  Run from the initial world, the
    script writes four files: the three PNG files hold the renderings of
    sizes 16, 32 and 180; [favicon.ico] is handed the six canvases of
    sizes 16 to 256 but, the 16-pixel canvas being the image saved, it
    stores a single frame, the 16-pixel one. *)
Theorem main_outputs :
  exists c16 c32 c48 c64 c128 c256 c180 : Canvas,
    map csize [c16; c32; c48; c64; c128; c256; c180] =
      [(16, 16); (32, 32); (48, 48); (64, 64); (128, 128); (256, 256); (180, 180)] /\
    Forall2 (fun size c => create_ghost_mask size initial_world = Ok (c, initial_world))
            (default_sizes ++ [180]) [c16; c32; c48; c64; c128; c256; c180] /\
    render_frames default_sizes initial_world =
      Ok ([c16; c32; c48; c64; c128; c256], initial_world) /\
    main initial_world =
      Ok (tt,
          {| globals := module_globals;
             files :=
               [ ("/root/.openclaw/workspace/ghostshift/public/apple-touch-icon.png"%string,
                  PNG_file c180);
                 ("/root/.openclaw/workspace/ghostshift/public/favicon-32x32.png"%string,
                  PNG_file c32);
                 ("/root/.openclaw/workspace/ghostshift/public/favicon-16x16.png"%string,
                  PNG_file c16);
                 ("/root/.openclaw/workspace/ghostshift/public/favicon.ico"%string,
                  ICO_file [c16]) ];
             stdout :=
               [ "Generating GhostShift favicon assets...";
                 "Created /root/.openclaw/workspace/ghostshift/public/favicon.ico";
                 "Created /root/.openclaw/workspace/ghostshift/public/favicon-16x16.png";
                 "Created /root/.openclaw/workspace/ghostshift/public/favicon-32x32.png";
                 "Created /root/.openclaw/workspace/ghostshift/public/apple-touch-icon.png";
                 String "010"%char "All favicon assets created successfully!" ]%string;
             writable := fun _ => true |}).
Proof.
  destruct (rendering_returns 16 ltac:(lia)) as (c16 & R16 & _ & S16 & _).
  destruct (rendering_returns 32 ltac:(lia)) as (c32 & R32 & _ & S32 & _).
  destruct (rendering_returns 48 ltac:(lia)) as (c48 & R48 & _ & S48 & _).
  destruct (rendering_returns 64 ltac:(lia)) as (c64 & R64 & _ & S64 & _).
  destruct (rendering_returns 128 ltac:(lia)) as (c128 & R128 & _ & S128 & _).
  destruct (rendering_returns 256 ltac:(lia)) as (c256 & R256 & _ & S256 & _).
  destruct (rendering_returns 180 ltac:(lia)) as (c180 & R180 & _ & S180 & _).
  exists c16, c32, c48, c64, c128, c256, c180.
  assert (Hall : Forall2 (fun size c => rendering module_globals size = Ok c)
                   default_sizes [c16; c32; c48; c64; c128; c256]).
  { unfold default_sizes. repeat constructor; assumption. }
  assert (Hpos : Forall (fun z => 0 < z) default_sizes).
  { unfold default_sizes. repeat constructor; lia. }
  split; [cbn [map]; rewrite S16, S32, S48, S64, S128, S256, S180; reflexivity|].
  split.
  { unfold default_sizes. cbn [app].
    repeat constructor; apply create_ghost_mask_run; (reflexivity || assumption). }
  split; [apply render_frames_run; [reflexivity | exact Hall]|].
  unfold main. unfold bind at 1. cbn [print].
  unfold bind at 1.
  rewrite (create_favicon_ico_run 16 [32; 48; 64; 128; 256] c16
             [c32; c48; c64; c128; c256])
    by first [reflexivity | exact Hall | exact Hpos | lia].
  rewrite (ico_frames_default c16 c32 c48 c64 c128 c256 S16 S32 S48 S64 S128 S256).
  unfold bind at 1.
  rewrite (create_png_run 16 _ _ c16) by first [reflexivity | assumption | lia].
  unfold bind at 1.
  rewrite (create_png_run 32 _ _ c32) by first [reflexivity | assumption | lia].
  unfold bind at 1.
  rewrite (create_png_run 180 _ _ c180) by first [reflexivity | assumption | lia].
  vm_compute. reflexivity.
Qed.

End ExportProperties.
(* ------------------------------------------------------------------ *)
(** ** Concrete instances *)

(** C3.  The code at size 16: the third glow ring and the highlight
    are handed the point boxes (4, 5, 4, 5) and (3, 4, 3, 4), so it is not
    true there that every measurement is at least 1 and every drawn shape
    has a positive extent.  The radius [glow_radius - i*2] of line 74 is
    not clamped, and the clamped [highlight_radius] of line 88 is not the
    one used at lines 90-91. *)
Lemma zero_extent_at_16 :
  8 <= 16 /\
  ellipse_boxes (draw_calls module_globals 16) =
    [ (-4, -5, 20, 11); (1, 2, 7, 8); (0, 1, 8, 9); (2, 3, 6, 7);
      (4, 5, 4, 5); (2, 3, 6, 7); (3, 4, 3, 4) ] /\
  ~ (Forall (fun m => 1 <= m) (measurements 16) /\
     Forall positive_extent (draw_calls module_globals 16)).
Proof.
  split; [lia|]. split; [vm_compute; reflexivity|].
  intros [_ H]. rewrite Forall_forall in H.
  assert (Hin : In (ellipse (glow_box 16 2) (NEON_COLOR module_globals ++ [30]))
                   (draw_calls module_globals 16)).
  { rewrite draw_calls_unfold. cbn [In]. tauto. }
  apply H in Hin. destruct Hin as [Hw _].
  vm_compute in Hw. discriminate.
Qed.

(** The same holds well beyond size 16: the highlight is a point box at
    every size from 8 to 63, the third glow ring at every size from 8 to
    35, although the radius computed for the highlight is at least 1. *)
Lemma point_boxes_below_64 (size : Z) :
  8 <= size < 64 ->
  1 <= highlight_radius size /\
  box_width (highlight_box size) = 0 /\ box_height (highlight_box size) = 0 /\
  (size < 36 ->
   box_width (glow_box size 2) = 0 /\ box_height (glow_box size 2) = 0).
Proof.
  intros H. split; [geometry|]. split; [geometry|]. split; [geometry|].
  intros H36. split; geometry.
Qed.


(** The canvas of a size below 8 is plain; a negative size is refused. *)
Example rendering_5_plain : rendering module_globals 5 = Ok (blank 5).
Proof. vm_compute. reflexivity. Qed.

Example negative_size_raises : rendering module_globals (-1) = Raise ValueError.
Proof. vm_compute. reflexivity. Qed.

Example scale_values :
  map (fun z => py_int (64 * s z)) [8; 16; 32; 33; 64; 180; 256] =
    [32; 32; 32; 33; 64; 180; 256].
Proof. vm_compute. reflexivity. Qed.

Lemma create_ghost_mask_canvas_witness :
  8 <= 16 /\ globals initial_world = module_globals /\
  exists img,
    create_ghost_mask 16 initial_world = Ok (img, initial_world) /\
    mode img = "RGBA"%string /\
    csize img = (16, 16) /\
    Z.of_nat (length (data img)) = 16 * 16.
Proof.
  split; [lia|]. split; [reflexivity|].
  apply (create_ghost_mask_canvas 16 initial_world); [lia | reflexivity].
Defined.

Lemma create_ghost_mask_small_witness :
  0 < 5 < 8 /\ globals initial_world = module_globals /\
  create_ghost_mask 5 initial_world = Ok (blank 5, initial_world) /\
  pixel_at (blank 5) 4 4 = Some (10, 10, 15, 255).
Proof.
  split; [lia|]. split; [reflexivity|].
  destruct (create_ghost_mask_small 5 initial_world) as (H1 & _ & _ & _ & H5);
    [lia | reflexivity |].
  split; [exact H1 | apply H5; lia].
Defined.

Lemma create_ghost_mask_deterministic_witness :
  globals initial_world = globals busy_world /\
  exists r : Res Canvas,
    create_ghost_mask 16 initial_world = lift r initial_world /\
    create_ghost_mask 16 busy_world = lift r busy_world.
Proof.
  split; [reflexivity|].
  apply (create_ghost_mask_deterministic 16 initial_world busy_world). reflexivity.
Defined.

Lemma measurements_and_extents_witness :
  8 <= 64 /\
  Forall (fun m => 1 <= m) (measurements 64) /\
  Forall nonneg_extent (draw_calls module_globals 64).
Proof.
  split; [lia|].
  destruct (measurements_and_extents module_globals 64) as (H1 & H2 & _); [lia|].
  split; assumption.
Defined.

Lemma scale_factor_witness :
  16 <= 180 /\ (0.5 <= s 16 /\ s 16 <= s 180)%Q.
Proof.
  split; [lia|].
  destruct (scale_factor 16 180) as (_ & H1 & H2); [lia|]. split; assumption.
Defined.

Lemma eye_layers_witness :
  8 <= 32 /\ globals initial_world = module_globals /\
  (exists img, create_ghost_mask 32 initial_world = Ok (img, initial_world)) /\
  strictly_inside (glow_box 32 1) (glow_box 32 0) /\
  strictly_inside (glow_box 32 2) (glow_box 32 1).
Proof.
  split; [lia|]. split; [reflexivity|].
  destruct (eye_layers module_globals 32 initial_world)
    as ((base & img & _ & Hrun & _) & _ & _ & _ & H1 & H2 & _); [lia | reflexivity |].
  split; [exists img; exact Hrun|]. split; assumption.
Defined.


Lemma ellipse_boxes_well_ordered_witness :
  8 <= 16 /\ Forall box_ordered (ellipse_boxes (draw_calls module_globals 16)).
Proof.
  split; [lia|].
  destruct (ellipse_boxes_well_ordered module_globals 16) as (_ & H & _); [lia|].
  exact H.
Defined.

Lemma ico_frames_are_renderings_witness :
  globals initial_world = module_globals /\
  Forall (fun z => 0 < z) default_sizes /\
  default_sizes <> [] /\
  exists images w',
    render_frames default_sizes initial_world = Ok (images, initial_world) /\
    create_favicon_ico default_sizes initial_world = Ok (ico_path, w').
Proof.
  assert (Hpos : Forall (fun z => 0 < z) default_sizes).
  { unfold default_sizes. repeat constructor; lia. }
  assert (Hne : default_sizes <> []) by discriminate.
  split; [reflexivity|]. split; [exact Hpos|]. split; [exact Hne|].
  destruct (ico_frames_are_renderings default_sizes initial_world eq_refl Hpos Hne)
    as (images & H1 & _ & _ & H4).
  destruct H4 as (w' & Hrun); [cbn; lia | reflexivity |].
  exists images, w'. auto.
Defined.

(* ------------------------------------------------------------------ *)
(** ** Further geometry of [create_ghost_mask] *)

(** An equation between integers, divisions by constants included. *)
Ltac integer_equation :=
  match goal with |- @eq Z _ _ => Z.div_mod_to_equations; lia end.

(** The body polygon is symmetric about the centre column: read
    backwards, its vertices are the mirror images of the vertices read
    forwards. *)
Theorem ghost_points_symmetric (size : Z) :
  map (mirror (center_x size)) (ghost_points size) = rev (ghost_points size).
Proof.
  unfold ghost_points, mirror. cbn [map rev app fst snd].
  repeat (f_equal; try integer_equation).
Qed.

(** From size 32 down the call sequence is not scaled any further: it is
    that of size 32, moved by the difference of the centres. *)
Lemma draw_calls_shifted (g : Globals) (size : Z) :
  size <= 32 ->
  draw_calls g size = map (shift_call (size / 2 - 16)) (draw_calls g 32).
Proof.
  intros H. rewrite !draw_calls_unfold.
  cbn [map shift_call].
  unfold ghost_points, head_box, socket_box, glow_box, pupil_box, highlight_box,
         eye_y, center_y, center_x, eye_offset_x, eye_radius, glow_radius,
         pupil_radius, highlight_radius, head_width, head_height, shift_point.
  cbn [map fst snd].
  int_closed_forms.
  change (32 <? 32) with false. cbv iota.
  destruct (Z.ltb_spec size 32) as [Hlt|Hge].
  - repeat (f_equal; try integer_equation).
  - assert (size = 32) by lia. subst size.
    repeat (f_equal; try integer_equation).
Qed.

(** The measurements never shrink when the size grows. *)
Theorem measurements_monotone (a b : Z) :
  a <= b -> Forall2 Z.le (measurements a) (measurements b).
Proof.
  intros H. unfold measurements, head_width, head_height, eye_offset_x,
    eye_radius, glow_radius, pupil_radius, highlight_radius.
  int_closed_forms.
  destruct (Z.ltb_spec a 32), (Z.ltb_spec b 32); try (exfalso; lia);
    repeat (apply Forall2_cons; [Z.div_mod_to_equations; lia|]);
    apply Forall2_nil.
Qed.

(** At a multiple [64 * k] of the reference size the design values are
    multiplied by [k] exactly. *)
Theorem reference_multiples (k : Z) :
  1 <= k ->
  center_x (64 * k) = 32 * k /\ center_y (64 * k) = 28 * k /\
  head_width (64 * k) = 24 * k /\ head_height (64 * k) = 22 * k /\
  eye_offset_x (64 * k) = 8 * k /\ eye_y (64 * k) = 26 * k /\
  eye_radius (64 * k) = 6 * k /\ glow_radius (64 * k) = 9 * k /\
  pupil_radius (64 * k) = 4 * k.
Proof.
  intros H. repeat split; geometry.
Qed.

(** The socket, the glow rings and the pupil share one centre; the
    pupil's box lies strictly inside the socket's, and the socket's
    strictly inside the box of the first glow ring, which is drawn over
    it. *)
Theorem eye_is_concentric (size : Z) :
  box_centre2 (socket_box size) = box_centre2 (pupil_box size) /\
  (forall i, box_centre2 (glow_box size i) = box_centre2 (pupil_box size)) /\
  strictly_inside (pupil_box size) (socket_box size) /\
  strictly_inside (socket_box size) (glow_box size 0).
Proof.
  split; [|split; [|split]].
  - unfold box_centre2, socket_box, pupil_box. f_equal; lia.
  - intros i. unfold box_centre2, glow_box, pupil_box. f_equal; lia.
  - unfold strictly_inside. repeat split; geometry.
  - unfold strictly_inside. repeat split; geometry.
Qed.

(* ------------------------------------------------------------------ *)
(** ** Placement on the canvas *)

Lemma fold_min_ge (l : list Z) (a b : Z) :
  b <= a -> Forall (fun x => b <= x) l -> b <= fold_left Z.min l a.
Proof.
  revert a. induction l as [|x l IH]; intros a Ha Hl; simpl; [exact Ha|].
  inversion Hl; subst. apply IH; [lia | assumption].
Qed.

Lemma fold_max_le (l : list Z) (a b : Z) :
  a <= b -> Forall (fun x => x <= b) l -> fold_left Z.max l a <= b.
Proof.
  revert a. induction l as [|x l IH]; intros a Ha Hl; simpl; [exact Ha|].
  inversion Hl; subst. apply IH; [lia | assumption].
Qed.

(** Bounds of the body's vertices, for a size of at least 26. *)
Lemma body_on_canvas (size : Z) (fill : list Z) :
  26 <= size -> on_canvas size (bounding_box (polygon (ghost_points size) fill)).
Proof.
  intros H. unfold on_canvas, bounding_box, list_min, list_max, ghost_points.
  cbn [map fst snd].
  repeat split.
  - apply fold_min_ge; [|repeat apply Forall_cons; try apply Forall_nil]; geometry.
  - apply fold_min_ge; [|repeat apply Forall_cons; try apply Forall_nil]; geometry.
  - apply fold_max_le; [|repeat apply Forall_cons; try apply Forall_nil]; geometry.
  - apply fold_max_le; [|repeat apply Forall_cons; try apply Forall_nil]; geometry.
Qed.

(** From size 26 on, every shape lies on the canvas. *)
Theorem shapes_on_canvas (g : Globals) (size : Z) :
  26 <= size ->
  Forall (fun c => on_canvas size (bounding_box c)) (draw_calls g size).
Proof.
  intros H. rewrite draw_calls_unfold.
  apply Forall_cons; [apply body_on_canvas, H|].
  repeat apply Forall_cons; try apply Forall_nil;
    cbn [bounding_box]; unfold on_canvas; geometry.
Qed.

(** Below size 26 the head does not fit: the top of its box is above the
    first row of the canvas (and below size 24 its left edge is left of
    the first column). *)
Theorem head_leaves_small_canvas (size : Z) :
  8 <= size < 26 ->
  ~ on_canvas size (head_box size) /\
  (let '(x0, y0, _, _) := head_box size in
   y0 = size / 2 - 13 /\ y0 < 0 /\ (size < 24 -> x0 < 0)).
Proof.
  intros H. split.
  - unfold on_canvas. intros Hc. revert Hc. geometry.
  - geometry.
Qed.

(* ------------------------------------------------------------------ *)
(** ** The pixels of the rendered canvas *)

Section Compositing.

Context {backend : Imaging}.

Lemma nth_error_combine_seq {A} (l : list A) (a i : nat) (p : A) :
  nth_error l i = Some p ->
  nth_error (combine (seq a (length l)) l) i = Some ((a + i)%nat, p).
Proof.
  revert a i. induction l as [|q l IH]; intros a i; destruct i; cbn; try discriminate.
  - intros [= ->]. rewrite Nat.add_0_r. reflexivity.
  - intros H. rewrite (IH (S a) i H). f_equal. f_equal. lia.
Qed.

Lemma pixel_at_in_range (im : Canvas) (x y : Z) (p : Pixel) :
  pixel_at im x y = Some p ->
  0 <= x < fst (csize im) /\ 0 <= y < snd (csize im) /\
  nth_error (data im) (Z.to_nat (y * fst (csize im) + x)) = Some p.
Proof.
  unfold pixel_at.
  destruct (Z.leb_spec 0 x); [|discriminate].
  destruct (Z.ltb_spec x (fst (csize im))); [|discriminate].
  destruct (Z.leb_spec 0 y); [|discriminate].
  destruct (Z.ltb_spec y (snd (csize im))); [|discriminate].
  cbn [andb]. intros Hnth. repeat split; (lia || exact Hnth).
Qed.

(** Drawing in place: a covered pixel takes the ink, any other pixel
    keeps its colour. *)
Lemma pixel_at_paint (cover : Z -> Z -> bool) (ink : Pixel) (im : Canvas)
    (x y : Z) (p : Pixel) :
  pixel_at im x y = Some p ->
  pixel_at (paint cover ink im) x y = Some (if cover x y then ink else p).
Proof.
  intros H. destruct (pixel_at_in_range im x y p H) as (Hx & Hy & Hn).
  unfold pixel_at, paint. cbn [csize data].
  destruct (Z.leb_spec 0 x); [|lia].
  destruct (Z.ltb_spec x (fst (csize im))); [|lia].
  destruct (Z.leb_spec 0 y); [|lia].
  destruct (Z.ltb_spec y (snd (csize im))); [|lia].
  cbn [andb].
  rewrite nth_error_map, (nth_error_combine_seq _ 0 _ p Hn).
  cbn [option_map fst snd Nat.add].
  rewrite Z2Nat.id by nia.
  replace ((y * fst (csize im) + x) mod fst (csize im)) with x.
  2:{ rewrite Z.add_comm, Z.mod_add by lia. symmetry. apply Z.mod_small. lia. }
  replace ((y * fst (csize im) + x) / fst (csize im)) with y.
  2:{ rewrite Z.add_comm, Z.div_add by lia. rewrite Z.div_small by lia. lia. }
  reflexivity.
Qed.

Lemma pixel_at_draw (im im' : Canvas) (c : DrawCall) (x y : Z) (p : Pixel) :
  draw im c = Ok im' ->
  pixel_at im x y = Some p ->
  pixel_at im' x y = Some (composite [c] p x y).
Proof.
  intros Hd Hp. cbn [composite].
  destruct c as [xy fill|xy fill]; cbn [draw covers fill_of] in *;
    destruct (ink_of fill) as [ink|e]; try discriminate.
  - injection Hd as <-. apply pixel_at_paint, Hp.
  - destruct (well_ordered xy); [|discriminate].
    injection Hd as <-. apply pixel_at_paint, Hp.
Qed.

(** The painter's rule: after a sequence of calls a pixel shows the ink
    of the last call that covers it. *)
Lemma pixel_at_draw_all (cs : list DrawCall) (im im' : Canvas) (x y : Z) (p : Pixel) :
  draw_all im cs = Ok im' ->
  pixel_at im x y = Some p ->
  pixel_at im' x y = Some (composite cs p x y).
Proof.
  revert im p. induction cs as [|c cs IH]; intros im p; cbn [draw_all].
  - intros [= <-] Hp. exact Hp.
  - destruct (draw im c) as [im1|e] eqn:Hd; [|discriminate].
    intros Hall Hp. pose proof (pixel_at_draw _ _ _ _ _ _ Hd Hp) as H1.
    exact (IH _ _ Hall H1).
Qed.

Lemma pixel_at_blank (size x y : Z) :
  0 <= x < size -> 0 <= y < size ->
  pixel_at (blank size) x y = Some (10, 10, 15, 255).
Proof.
  intros Hx Hy. unfold pixel_at. cbn [blank csize data fst snd].
  destruct (Z.leb_spec 0 x); [|lia]. destruct (Z.ltb_spec x size); [|lia].
  destruct (Z.leb_spec 0 y); [|lia]. destruct (Z.ltb_spec y size); [|lia].
  cbn [andb]. apply nth_error_repeat. nia.
Qed.

Lemma rendering_pixels (size : Z) :
  8 <= size ->
  exists im,
    rendering module_globals size = Ok im /\
    forall x y, 0 <= x < size -> 0 <= y < size ->
      pixel_at im x y =
        Some (composite (draw_calls module_globals size) (10, 10, 15, 255) x y).
Proof.
  intros H. destruct (rendering_returns size ltac:(lia)) as (im & Hr & _).
  exists im. split; [exact Hr|]. intros x y Hx Hy.
  unfold rendering in Hr. rewrite Image_new_blank in Hr by lia.
  destruct (Z.ltb_spec size 8); [lia|].
  apply (pixel_at_draw_all _ _ _ _ _ _ Hr), pixel_at_blank; assumption.
Qed.

(** Every pixel of the canvas [create_ghost_mask] returns for a size of
    at least 8 is the background colour overdrawn, in program order, by
    the calls that cover it: it shows the ink of the last such call. *)
Theorem create_ghost_mask_pixels (size : Z) (w : World) :
  8 <= size ->
  globals w = module_globals ->
  exists im,
    create_ghost_mask size w = Ok (im, w) /\
    forall x y, 0 <= x < size -> 0 <= y < size ->
      pixel_at im x y =
        Some (composite (draw_calls module_globals size) (10, 10, 15, 255) x y).
Proof.
  intros H Hg. destruct (rendering_pixels size H) as (im & Hr & Hp).
  exists im. split; [|exact Hp].
  rewrite create_ghost_mask_pure, Hg, Hr. reflexivity.
Qed.

(** What is on top: a pixel the highlight covers is near white, a pixel
    the pupil covers and the highlight does not is neon, and a pixel no
    call covers keeps the background colour. *)
Theorem create_ghost_mask_layers (size : Z) (w : World) :
  8 <= size ->
  globals w = module_globals ->
  exists im,
    create_ghost_mask size w = Ok (im, w) /\
    forall x y, 0 <= x < size -> 0 <= y < size ->
      (ellipse_cover (highlight_box size) x y = true ->
       pixel_at im x y = Some (200, 255, 230, 255)) /\
      (ellipse_cover (highlight_box size) x y = false ->
       ellipse_cover (pupil_box size) x y = true ->
       pixel_at im x y = Some (0, 255, 170, 255)) /\
      (forallb (fun c => negb (covers c x y)) (draw_calls module_globals size) = true ->
       pixel_at im x y = Some (10, 10, 15, 255)).
Proof.
  intros H Hg. destruct (rendering_pixels size H) as (im & Hr & Hp).
  exists im. split; [rewrite create_ghost_mask_pure, Hg, Hr; reflexivity|].
  intros x y Hx Hy. rewrite (Hp x y Hx Hy), draw_calls_unfold.
  cbn [composite covers fill_of forallb].
  change (ink_of (GHOST_COLOR module_globals ++ [255])) with (Ok (A:=Pixel) (40, 40, 60, 255)).
  change (ink_of (BG_COLOR module_globals ++ [255])) with (Ok (A:=Pixel) (10, 10, 15, 255)).
  change (ink_of (NEON_COLOR module_globals ++ [60])) with (Ok (A:=Pixel) (0, 255, 170, 60)).
  change (ink_of (NEON_COLOR module_globals ++ [45])) with (Ok (A:=Pixel) (0, 255, 170, 45)).
  change (ink_of (NEON_COLOR module_globals ++ [30])) with (Ok (A:=Pixel) (0, 255, 170, 30)).
  change (ink_of (NEON_COLOR module_globals)) with (Ok (A:=Pixel) (0, 255, 170, 255)).
  change (ink_of [200; 255; 230]) with (Ok (A:=Pixel) (200, 255, 230, 255)).
  split; [|split].
  - intros ->. reflexivity.
  - intros -> ->. reflexivity.
  - rewrite !andb_true_iff, !negb_true_iff.
    intros (-> & -> & -> & -> & -> & -> & -> & -> & _). reflexivity.
Qed.

Lemma second_ring_box (size : Z) :
  size <= 35 -> glow_box size 1 = pupil_box size.
Proof.
  intros H. unfold glow_box, pupil_box, eye_y, center_y, center_x, eye_offset_x,
    glow_radius, pupil_radius.
  int_closed_forms.
  destruct (Z.ltb_spec size 32); repeat (f_equal; try integer_equation).
Qed.

(** Up to size 35 the second glow ring has the very box of the pupil,
    which is drawn after it: the ring is painted over completely, and no
    pixel of the result carries its ink (alpha 45). *)
Theorem second_ring_hidden (size : Z) (w : World) :
  8 <= size <= 35 ->
  globals w = module_globals ->
  exists im,
    create_ghost_mask size w = Ok (im, w) /\
    glow_box size 1 = pupil_box size /\
    forall x y, 0 <= x < size -> 0 <= y < size ->
      pixel_at im x y <> Some (0, 255, 170, 45).
Proof.
  intros H Hg. destruct (rendering_pixels size ltac:(lia)) as (im & Hr & Hp).
  exists im. split; [rewrite create_ghost_mask_pure, Hg, Hr; reflexivity|].
  assert (Hbox : glow_box size 1 = pupil_box size) by (apply second_ring_box; lia).
  split; [exact Hbox|].
  intros x y Hx Hy. rewrite (Hp x y Hx Hy), draw_calls_unfold, Hbox.
  cbn [composite covers fill_of].
  change (ink_of (GHOST_COLOR module_globals ++ [255])) with (Ok (A:=Pixel) (40, 40, 60, 255)).
  change (ink_of (BG_COLOR module_globals ++ [255])) with (Ok (A:=Pixel) (10, 10, 15, 255)).
  change (ink_of (NEON_COLOR module_globals ++ [60])) with (Ok (A:=Pixel) (0, 255, 170, 60)).
  change (ink_of (NEON_COLOR module_globals ++ [45])) with (Ok (A:=Pixel) (0, 255, 170, 45)).
  change (ink_of (NEON_COLOR module_globals ++ [30])) with (Ok (A:=Pixel) (0, 255, 170, 30)).
  change (ink_of (NEON_COLOR module_globals)) with (Ok (A:=Pixel) (0, 255, 170, 255)).
  change (ink_of [200; 255; 230]) with (Ok (A:=Pixel) (200, 255, 230, 255)).
  destruct (ellipse_cover (highlight_box size) x y); [discriminate|].
  destruct (ellipse_cover (pupil_box size) x y); [discriminate|].
  destruct (ellipse_cover (glow_box size 2) x y); [discriminate|].
  destruct (ellipse_cover (glow_box size 0) x y); [discriminate|].
  destruct (ellipse_cover (socket_box size) x y); [discriminate|].
  destruct (ellipse_cover (head_box size) x y); [discriminate|].
  destruct (polygon_cover (ghost_points size) x y); discriminate.
Qed.

(** For every size from 8 to 32 the scale factor is clamped at 0.5 and
    the drawing is not scaled down any further: [create_ghost_mask] makes
    exactly the calls of size 32, moved by [size // 2 - 16] pixels along
    both axes, and its canvas is the blank canvas with these calls drawn
    on it. *)
Theorem small_sizes_are_shifted (size : Z) (w : World) :
  8 <= size <= 32 ->
  globals w = module_globals ->
  exists img,
    create_ghost_mask size w = Ok (img, w) /\
    calls_made module_globals size =
      map (shift_call (size / 2 - 16)) (draw_calls module_globals 32) /\
    draw_all (blank size)
      (map (shift_call (size / 2 - 16)) (draw_calls module_globals 32)) = Ok img.
Proof.
  intros H Hg. destruct (rendering_returns size ltac:(lia)) as (img & Hr & _).
  assert (Hcalls : calls_made module_globals size =
                   map (shift_call (size / 2 - 16)) (draw_calls module_globals 32)).
  { unfold calls_made. destruct (Z.ltb_spec size 8); [lia|].
    apply draw_calls_shifted. lia. }
  exists img. split; [rewrite create_ghost_mask_pure, Hg, Hr; reflexivity|].
  split; [exact Hcalls|].
  rewrite <- Hcalls, <- rendering_calls_made by lia. exact Hr.
Qed.

End Compositing.

Lemma create_ghost_mask_pixels_witness :
  8 <= 64 /\ globals initial_world = module_globals /\
  exists im,
    create_ghost_mask 64 initial_world = Ok (im, initial_world) /\
    pixel_at im 24 26 =
      Some (composite (draw_calls module_globals 64) (10, 10, 15, 255) 24 26).
Proof.
  split; [lia|]. split; [reflexivity|].
  destruct (create_ghost_mask_pixels 64 initial_world) as (im & Hrun & Hp);
    [lia | reflexivity |].
  exists im. split; [exact Hrun | apply Hp; lia].
Defined.

(** The centre of the pupil at size 64, (24, 26), is outside the
    highlight's box (22, 24, 23, 25). *)
Lemma create_ghost_mask_layers_witness :
  8 <= 64 /\ globals initial_world = module_globals /\
  exists im,
    create_ghost_mask 64 initial_world = Ok (im, initial_world) /\
    pixel_at im 24 26 = Some (0, 255, 170, 255).
Proof.
  split; [lia|]. split; [reflexivity|].
  destruct (create_ghost_mask_layers 64 initial_world) as (im & Hrun & Hp);
    [lia | reflexivity |].
  exists im. split; [exact Hrun|].
  destruct (Hp 24 26) as (_ & Hpupil & _); [lia | lia |].
  apply Hpupil; vm_compute; reflexivity.
Defined.

Lemma second_ring_hidden_witness :
  8 <= 16 <= 35 /\ globals initial_world = module_globals /\
  exists im,
    create_ghost_mask 16 initial_world = Ok (im, initial_world) /\
    pixel_at im 4 5 <> Some (0, 255, 170, 45).
Proof.
  split; [lia|]. split; [reflexivity|].
  destruct (second_ring_hidden 16 initial_world) as (im & Hrun & _ & Hp);
    [lia | reflexivity |].
  exists im. split; [exact Hrun | apply Hp; lia].
Defined.

Lemma small_sizes_are_shifted_witness :
  8 <= 16 <= 32 /\ globals initial_world = module_globals /\
  exists img,
    create_ghost_mask 16 initial_world = Ok (img, initial_world) /\
    calls_made module_globals 16 =
      map (shift_call (16 / 2 - 16)) (draw_calls module_globals 32).
Proof.
  split; [lia|]. split; [reflexivity|].
  destruct (small_sizes_are_shifted 16 initial_world) as (img & Hrun & Hcalls & _);
    [lia | reflexivity |].
  exists img. split; assumption.
Defined.

(* ------------------------------------------------------------------ *)
(** ** Errors and file effects of the export driver *)

Section ExportEffects.

Context {backend : Imaging}.

Lemma rendering_negative (g : Globals) (size : Z) :
  size < 0 -> rendering g size = Raise ValueError.
Proof.
  intros H. unfold rendering, Image_new. cbn [fst snd].
  destruct (Z.ltb_spec size 0); [reflexivity | lia].
Qed.

Lemma render_frames_negative (sizes : list Z) (w : World) :
  globals w = module_globals ->
  Exists (fun z => z < 0) sizes ->
  render_frames sizes w = Raise ValueError.
Proof.
  intros Hg. induction sizes as [|size sizes IH]; intros Hex.
  - inversion Hex.
  - cbn [render_frames]. unfold bind at 1. rewrite create_ghost_mask_pure.
    destruct (Z.ltb_spec size 0) as [Hneg|Hpos].
    + rewrite rendering_negative by exact Hneg. reflexivity.
    + destruct (rendering_returns size Hpos) as (c & Hr & _ & Hs & _).
      rewrite Hg, Hr. cbn [lift]. unfold bind at 1.
      rewrite (resize_same c (size, size) LANCZOS Hs). cbn [lift].
      unfold bind at 1. rewrite IH; [reflexivity|].
      inversion Hex; subst; [lia | assumption].
Qed.

Lemma positive_nonneg (sizes : list Z) :
  Forall (fun z => 0 < z) sizes -> Forall (fun z => 0 <= z) sizes.
Proof. intros H. eapply Forall_impl; [|exact H]. cbn beta. lia. Qed.

(** How [create_favicon_ico] ends: on the empty list [images[0]] raises
    [IndexError]; a negative size anywhere in the list raises
    [ValueError]; for positive sizes of which the first is at most 256,
    and a path that can be written, the call returns the path of the icon
    and prints one line. *)
Theorem create_favicon_ico_outcome (sizes : list Z) (w : World) :
  globals w = module_globals ->
  (sizes = [] -> create_favicon_ico sizes w = Raise IndexError) /\
  (Exists (fun z => z < 0) sizes -> create_favicon_ico sizes w = Raise ValueError) /\
  (sizes <> [] -> Forall (fun z => 0 < z) sizes -> hd 0 sizes <= 256 ->
   writable w ico_path = true ->
   exists w', create_favicon_ico sizes w = Ok (ico_path, w') /\
              globals w' = globals w /\
              stdout w' = stdout w ++ [("Created " ++ ico_path)%string]).
Proof.
  intros Hg. split; [|split].
  - intros ->. reflexivity.
  - intros Hex. unfold create_favicon_ico. unfold bind at 1.
    rewrite (render_frames_negative sizes w Hg Hex). reflexivity.
  - intros Hne Hpos H256 Hw.
    destruct (renderings_exist sizes (positive_nonneg _ Hpos)) as [cs Hcs].
    destruct sizes as [|first rest]; [contradiction|].
    destruct cs as [|c0 others]; [inversion Hcs|].
    eexists.
    split; [exact (create_favicon_ico_run first rest c0 others w Hg Hcs Hpos H256 Hw)|].
    split; reflexivity.
Qed.

(** Looking a path up after a write to [q]. *)
Lemma lookup_after_write (q p : string) (f : File) (l : list (string * File)) :
  option_map snd
    (find (fun e => String.eqb (fst e) p)
          ((q, f) :: filter (fun e => negb (String.eqb (fst e) q)) l)) =
  if String.eqb q p then Some f
  else option_map snd (find (fun e => String.eqb (fst e) p) l).
Proof.
  cbn [find fst]. destruct (String.eqb_spec q p) as [->|Hne]; [reflexivity|].
  f_equal. induction l as [|e l IH]; [reflexivity|]. cbn [filter find].
  destruct (String.eqb_spec (fst e) q) as [Heq|Hneq]; cbn [negb].
  - rewrite Heq. destruct (String.eqb_spec q p); [contradiction | exact IH].
  - cbn [find]. destruct (String.eqb (fst e) p); [reflexivity | exact IH].
Qed.

Lemma create_png_effect (size : Z) (filename : string) (w : World) (c : Canvas) :
  globals w = module_globals ->
  rendering module_globals size = Ok c ->
  0 < size ->
  writable w (public_dir ++ filename) = true ->
  exists w',
    create_png size filename w = Ok ((public_dir ++ filename)%string, w') /\
    lookup_file (public_dir ++ filename) w' = Some (PNG_file c) /\
    (forall p, p <> (public_dir ++ filename)%string ->
               lookup_file p w' = lookup_file p w) /\
    stdout w' = stdout w ++ [("Created " ++ public_dir ++ filename)%string] /\
    globals w' = globals w /\
    writable w' = writable w.
Proof.
  intros Hg Hr Hpos Hw. eexists.
  split; [exact (create_png_run size filename w c Hg Hr Hpos Hw)|].
  unfold lookup_file. cbn [files stdout globals writable].
  split; [rewrite lookup_after_write, String.eqb_refl; reflexivity|].
  split; [|repeat split].
  intros p Hp. rewrite lookup_after_write.
  destruct (String.eqb_spec (public_dir ++ filename) p); [congruence | reflexivity].
Qed.

(** For a positive size and a path that can be written, [create_png]
    stores at its path exactly the canvas [create_ghost_mask] returns for
    the size, leaves every other file as it was, prints one line and
    returns the path. *)
Theorem create_png_writes_rendering (size : Z) (filename : string) (w : World) :
  0 < size ->
  globals w = module_globals ->
  writable w (public_dir ++ filename) = true ->
  exists img w',
    create_ghost_mask size w = Ok (img, w) /\
    create_png size filename w = Ok ((public_dir ++ filename)%string, w') /\
    lookup_file (public_dir ++ filename) w' = Some (PNG_file img) /\
    (forall p, p <> (public_dir ++ filename)%string ->
               lookup_file p w' = lookup_file p w) /\
    stdout w' = stdout w ++ [("Created " ++ public_dir ++ filename)%string] /\
    globals w' = globals w /\
    writable w' = writable w.
Proof.
  intros Hsize Hg Hw. destruct (rendering_returns size ltac:(lia)) as (c & Hr & _).
  destruct (create_png_effect size filename w c Hg Hr Hsize Hw) as (w' & H).
  exists c, w'. split; [apply create_ghost_mask_run; assumption | exact H].
Qed.

End ExportEffects.

Lemma create_favicon_ico_outcome_witness :
  globals initial_world = module_globals /\
  create_favicon_ico [] initial_world = Raise IndexError /\
  create_favicon_ico [16; -1] initial_world = Raise ValueError /\
  exists w', create_favicon_ico [32; 16] initial_world = Ok (ico_path, w').
Proof.
  split; [reflexivity|].
  destruct (create_favicon_ico_outcome [] initial_world eq_refl) as (H1 & _).
  destruct (create_favicon_ico_outcome [16; -1] initial_world eq_refl) as (_ & H2 & _).
  destruct (create_favicon_ico_outcome [32; 16] initial_world eq_refl) as (_ & _ & H3).
  split; [apply H1; reflexivity|].
  split; [apply H2; apply Exists_cons_tl, Exists_cons_hd; lia|].
  destruct H3 as (w' & Hrun & _);
    [discriminate | repeat constructor; lia | cbn; lia | reflexivity |].
  exists w'. exact Hrun.
Defined.

Lemma create_png_writes_rendering_witness :
  0 < 16 /\ globals busy_world = module_globals /\
  writable busy_world (public_dir ++ "favicon-16x16.png") = true /\
  exists img w',
    create_ghost_mask 16 busy_world = Ok (img, busy_world) /\
    create_png 16 "favicon-16x16.png" busy_world =
      Ok ((public_dir ++ "favicon-16x16.png")%string, w') /\
    lookup_file (public_dir ++ "favicon-16x16.png") w' = Some (PNG_file img) /\
    lookup_file "notes.txt" w' = Some (ICO_file []).
Proof.
  split; [lia|]. split; [reflexivity|]. split; [reflexivity|].
  destruct (create_png_writes_rendering 16 "favicon-16x16.png" busy_world)
    as (img & w' & H1 & H2 & H3 & H4 & _); [lia | reflexivity | reflexivity |].
  exists img, w'. repeat split; try assumption.
  rewrite H4; [reflexivity | discriminate].
Defined.

(* ------------------------------------------------------------------ *)
(** ** Which frames the icon file holds *)

Section IconFrames.

Context {backend : Imaging}.

(** The core fact about the file [create_favicon_ico] writes. *)
Lemma create_favicon_ico_frames (first : Z) (rest : list Z) (w : World) :
  globals w = module_globals ->
  Forall (fun z => 0 < z) (first :: rest) ->
  first <= 256 ->
  writable w ico_path = true ->
  exists frames w',
    create_favicon_ico (first :: rest) w = Ok (ico_path, w') /\
    lookup_file ico_path w' = Some (ICO_file frames) /\
    map csize frames =
      filter (fun size => (fst size <=? first) && (fst size <=? 256))
             (sorted_set (map square (first :: rest))) /\
    Forall (fun f => exists z, In z (first :: rest) /\ csize f = square z /\
                               create_ghost_mask z w = Ok (f, w)) frames.
Proof.
  intros Hg Hpos H256 Hw.
  destruct (renderings_exist _ (positive_nonneg _ Hpos)) as [cs Hcs].
  destruct cs as [|c0 others]; [inversion Hcs|].
  exists (ico_frames c0 (map csize (c0 :: others)) others). eexists.
  split; [exact (create_favicon_ico_run first rest c0 others w Hg Hcs Hpos H256 Hw)|].
  split.
  { unfold lookup_file. cbn [files find fst]. rewrite String.eqb_refl. reflexivity. }
  split; [exact (stored_sizes first rest c0 others Hcs)|].
  eapply Forall_impl; [|apply ico_frames_provided].
  intros f Hf. cbn beta in Hf.
  destruct (Forall2_In_r _ _ _ _ Hcs Hf) as (z & Hz & Hr).
  exists z. split; [exact Hz|].
  split; [apply (rendering_shape _ _ _ Hr) | apply create_ghost_mask_run; assumption].
Qed.

(** For positive sizes of which the first is at most 256, the icon file
    holds one frame for each requested size that exceeds neither the
    first size of the list nor 256, in ascending order and without
    repetition; every frame is the canvas [create_ghost_mask] returns for
    its size. *)
Theorem ico_stored_sizes (first : Z) (rest : list Z) (w : World) :
  globals w = module_globals ->
  Forall (fun z => 0 < z) (first :: rest) ->
  first <= 256 ->
  writable w ico_path = true ->
  exists frames w',
    create_favicon_ico (first :: rest) w = Ok (ico_path, w') /\
    lookup_file ico_path w' = Some (ICO_file frames) /\
    map csize frames =
      filter (fun size => (fst size <=? first) && (fst size <=? 256))
             (sorted_set (map square (first :: rest))) /\
    Forall (fun f => exists z, In z (first :: rest) /\ csize f = square z /\
                               create_ghost_mask z w = Ok (f, w)) frames.
Proof. exact (create_favicon_ico_frames first rest w). Qed.

Lemma filter_all {A} (f : A -> bool) (l : list A) :
  (forall x, In x l -> f x = true) -> filter f l = l.
Proof.
  induction l as [|a l IH]; intros H; [reflexivity|]. cbn [filter].
  rewrite (H a (or_introl eq_refl)), IH; [reflexivity|].
  intros x Hx. apply H. right; exact Hx.
Qed.

Lemma filter_none {A} (f : A -> bool) (l : list A) :
  (forall x, In x l -> f x = false) -> filter f l = [].
Proof.
  induction l as [|a l IH]; intros H; [reflexivity|]. cbn [filter].
  rewrite (H a (or_introl eq_refl)). apply IH.
  intros x Hx. apply H. right; exact Hx.
Qed.

(** With the largest size first (positive sizes, none above 256), every
    requested size gets its frame. *)
Theorem largest_first_keeps_all (first : Z) (rest : list Z) (w : World) :
  globals w = module_globals ->
  Forall (fun z => 0 < z) (first :: rest) ->
  first <= 256 ->
  Forall (fun z => z <= first) rest ->
  writable w ico_path = true ->
  exists frames w',
    create_favicon_ico (first :: rest) w = Ok (ico_path, w') /\
    lookup_file ico_path w' = Some (ICO_file frames) /\
    map csize frames = sorted_set (map square (first :: rest)) /\
    forall z, In z (first :: rest) ->
      exists img, In img frames /\ create_ghost_mask z w = Ok (img, w).
Proof.
  intros Hg Hpos H256 Hmax Hw.
  destruct (create_favicon_ico_frames first rest w Hg Hpos H256 Hw)
    as (frames & w' & Hrun & Hlook & Hsizes & Hren).
  assert (Hall : map csize frames = sorted_set (map square (first :: rest))).
  { rewrite Hsizes. apply filter_all. intros size Hin.
    apply sorted_set_squares in Hin. destruct Hin as (z & Hz & ->).
    cbn [square fst]. rewrite Forall_forall in Hmax.
    assert (z <= first) by (destruct Hz as [<-|Hz]; [lia | apply Hmax, Hz]).
    apply andb_true_iff. rewrite !Z.leb_le. lia. }
  exists frames, w'. repeat split; try assumption.
  intros z Hz.
  assert (Hin : In (square z) (map csize frames)).
  { rewrite Hall. apply sorted_set_In_inv, in_map, Hz. }
  apply in_map_iff in Hin. destruct Hin as (img & Hc & Himg).
  exists img. split; [exact Himg|].
  rewrite Forall_forall in Hren. destruct (Hren img Himg) as (z' & _ & Hc' & Hrun').
  rewrite Hc' in Hc. injection Hc as ->. exact Hrun'.
Qed.

(** With the smallest size first, as in the default list, the icon file
    holds the frame of that size only, however many sizes follow. *)
Theorem smallest_first_keeps_one (first : Z) (rest : list Z) (w : World) :
  globals w = module_globals ->
  0 < first <= 256 ->
  Forall (fun z => first < z) rest ->
  writable w ico_path = true ->
  exists img w',
    create_favicon_ico (first :: rest) w = Ok (ico_path, w') /\
    lookup_file ico_path w' = Some (ICO_file [img]) /\
    csize img = (first, first) /\
    create_ghost_mask first w = Ok (img, w).
Proof.
  intros Hg Hfirst Hrest Hw.
  assert (Hpos : Forall (fun z => 0 < z) (first :: rest)).
  { constructor; [lia|]. eapply Forall_impl; [|exact Hrest]. cbn beta. lia. }
  destruct (create_favicon_ico_frames first rest w Hg Hpos ltac:(lia) Hw)
    as (frames & w' & Hrun & Hlook & Hsizes & Hren).
  assert (Hone : map csize frames = [square first]).
  { rewrite Hsizes. cbn [map sorted_set fold_right].
    fold (sorted_set (map square rest)).
    assert (Hbig : forall size, In size (sorted_set (map square rest)) ->
                                first < fst size).
    { intros size Hin. apply sorted_set_squares in Hin.
      destruct Hin as (z & Hz & ->). rewrite Forall_forall in Hrest.
      cbn [square fst]. apply Hrest, Hz. }
    assert (Hins : insert_size (square first) (sorted_set (map square rest)) =
                   square first :: sorted_set (map square rest)).
    { destruct (sorted_set (map square rest)) as [|y l]; [reflexivity|].
      cbn [insert_size]. specialize (Hbig y (or_introl eq_refl)).
      unfold size_ltb. cbn [square fst snd].
      destruct (Z.ltb_spec first (fst y)); [reflexivity | lia]. }
    rewrite Hins. cbn [filter square fst].
    destruct (Z.leb_spec first first); [|lia].
    destruct (Z.leb_spec first 256); [|lia]. cbn [andb]. f_equal.
    apply filter_none. intros size Hin. specialize (Hbig size Hin).
    destruct (Z.leb_spec (fst size) first); [lia | reflexivity]. }
  destruct frames as [|img [|img2 frames]]; try discriminate.
  injection Hone as Hc. exists img, w'.
  repeat split; try assumption.
  inversion Hren as [|? ? (z & _ & Hc' & Hrun') _]; subst.
  rewrite Hc' in Hc. injection Hc as ->. exact Hrun'.
Qed.

End IconFrames.

Lemma ico_stored_sizes_witness :
  globals initial_world = module_globals /\
  Forall (fun z => 0 < z) [32; 16; 512] /\
  32 <= 256 /\
  writable initial_world ico_path = true /\
  exists frames w',
    create_favicon_ico [32; 16; 512] initial_world = Ok (ico_path, w') /\
    lookup_file ico_path w' = Some (ICO_file frames) /\
    map csize frames = [(16, 16); (32, 32)].
Proof.
  assert (Hpos : Forall (fun z => 0 < z) [32; 16; 512]) by (repeat constructor; lia).
  split; [reflexivity|]. split; [exact Hpos|]. split; [lia|]. split; [reflexivity|].
  destruct (ico_stored_sizes 32 [16; 512] initial_world eq_refl Hpos ltac:(lia) eq_refl)
    as (frames & w' & H1 & H2 & H3 & _).
  exists frames, w'. repeat split; assumption.
Defined.

Lemma largest_first_keeps_all_witness :
  globals initial_world = module_globals /\
  Forall (fun z => 0 < z) [256; 128; 64; 48; 32; 16] /\
  256 <= 256 /\
  Forall (fun z => z <= 256) [128; 64; 48; 32; 16] /\
  writable initial_world ico_path = true /\
  exists frames w',
    create_favicon_ico [256; 128; 64; 48; 32; 16] initial_world = Ok (ico_path, w') /\
    lookup_file ico_path w' = Some (ICO_file frames) /\
    map csize frames =
      [(16, 16); (32, 32); (48, 48); (64, 64); (128, 128); (256, 256)].
Proof.
  assert (Hpos : Forall (fun z => 0 < z) [256; 128; 64; 48; 32; 16])
    by (repeat constructor; lia).
  assert (Hmax : Forall (fun z => z <= 256) [128; 64; 48; 32; 16])
    by (repeat constructor; lia).
  split; [reflexivity|]. split; [exact Hpos|]. split; [lia|]. split; [exact Hmax|].
  split; [reflexivity|].
  destruct (largest_first_keeps_all 256 [128; 64; 48; 32; 16] initial_world
              eq_refl Hpos ltac:(lia) Hmax eq_refl)
    as (frames & w' & H1 & H2 & H3 & _).
  exists frames, w'. repeat split; assumption.
Defined.

Lemma smallest_first_keeps_one_witness :
  globals initial_world = module_globals /\
  0 < 16 <= 256 /\
  Forall (fun z => 16 < z) [32; 48; 64; 128; 256] /\
  writable initial_world ico_path = true /\
  exists img w',
    create_favicon_ico default_sizes initial_world = Ok (ico_path, w') /\
    lookup_file ico_path w' = Some (ICO_file [img]) /\
    csize img = (16, 16).
Proof.
  assert (Hrest : Forall (fun z => 16 < z) [32; 48; 64; 128; 256])
    by (repeat constructor; lia).
  split; [reflexivity|]. split; [lia|]. split; [exact Hrest|]. split; [reflexivity|].
  destruct (smallest_first_keeps_one 16 [32; 48; 64; 128; 256] initial_world
              eq_refl ltac:(lia) Hrest eq_refl)
    as (img & w' & H1 & H2 & H3 & _).
  exists img, w'. repeat split; assumption.
Defined.

(* ------------------------------------------------------------------ *)
(** ** The whole run, from any starting world *)

Section WholeRun.

Context {backend : Imaging}.



End WholeRun.


(* ------------------------------------------------------------------ *)
(** ** Further concrete instances *)

Lemma measurements_monotone_witness :
  16 <= 180 /\ Forall2 Z.le (measurements 16) (measurements 180).
Proof.
  split; [lia|]. apply (measurements_monotone 16 180). lia.
Defined.

Lemma reference_multiples_witness :
  1 <= 2 /\ center_x (64 * 2) = 32 * 2 /\ glow_radius (64 * 2) = 9 * 2.
Proof.
  split; [lia|].
  destruct (reference_multiples 2) as (H1 & _ & _ & _ & _ & _ & _ & H8 & _); [lia|].
  split; assumption.
Defined.

Lemma shapes_on_canvas_witness :
  26 <= 32 /\
  Forall (fun c => on_canvas 32 (bounding_box c)) (draw_calls module_globals 32).
Proof.
  split; [lia|]. apply (shapes_on_canvas module_globals 32). lia.
Defined.

Lemma head_leaves_small_canvas_witness :
  8 <= 16 < 26 /\ ~ on_canvas 16 (head_box 16).
Proof.
  split; [lia|]. destruct (head_leaves_small_canvas 16) as [H _]; [lia | exact H].
Defined.
